(** * Resilient email delivery service: circuit breaker, retry, fallback,
      rate limiter and idempotency check

    Shallow embedding of
      - src/utils/CircuitBreaker.ts   (class CircuitBreaker),
      - src/utils/RateLimiterCheck.ts (isRateLimited, getRateLimitStatus),
      - src/utils/IdempotencyCheck.ts (isDuplicate, markAsSent),
      - src/services/EmailService.ts  (class EmailService, the version with
        circuit breakers),
      - src/index.ts                  (the HTTP handlers, the version with
        circuit breakers).

    JavaScript numbers that hold counters and millisecond timestamps are
    modelled as [Z].  Mutable objects become records threaded explicitly;
    [Date.now()] becomes a [now] argument for the leaf components and a
    clock field of the world for the service. *)

From Stdlib Require Import ZArith Lia List Sorted.
From stdpp Require Import base decidable option list sorting gmap strings.
Import ListNotations.

Local Open Scope string_scope.
Local Open Scope list_scope.
Local Open Scope Z_scope.

(** ** models/CircuitBreakerConfig.ts *)

Record CircuitBreakerConfig := mkConfig {
  failureThreshold : Z;   (* total failures before tripping *)
  recoveryTimeout : Z;    (* time to wait before testing again *)
  monitoringWindow : Z    (* time window to track failures *)
}.

(** [Partial<CircuitBreakerConfig>]: every field may be absent. *)
Record PartialConfig := mkPartial {
  p_failureThreshold : option Z;
  p_recoveryTimeout : option Z;
  p_monitoringWindow : option Z
}.

(** ** utils/CircuitBreaker.ts *)

Module CircuitBreaker.

Inductive CircuitState := CLOSED | OPEN | HALF_OPEN.

#[global] Instance CircuitState_eq_dec : EqDecision CircuitState.
Proof. solve_decision. Defined.

Record t := mk {
  state : CircuitState;
  failureCount : Z;
  lastFailureTime : Z;
  nextAttemptTime : Z;
  config : CircuitBreakerConfig;
  providerName : string
}.

(** The constructor: defaults spread first, then the caller's fields. *)
Definition new (name : string) (c : PartialConfig) : t :=
  {| state := CLOSED;
     failureCount := 0;
     lastFailureTime := 0;
     nextAttemptTime := 0;
     config := {| failureThreshold := default 3 (p_failureThreshold c);
                  recoveryTimeout := default 30000 (p_recoveryTimeout c);
                  monitoringWindow := default 60000 (p_monitoringWindow c) |};
     providerName := name |}.

Definition set_state (s : CircuitState) (cb : t) : t :=
  {| state := s; failureCount := failureCount cb;
     lastFailureTime := lastFailureTime cb;
     nextAttemptTime := nextAttemptTime cb;
     config := config cb; providerName := providerName cb |}.

Definition set_failureCount (n : Z) (cb : t) : t :=
  {| state := state cb; failureCount := n;
     lastFailureTime := lastFailureTime cb;
     nextAttemptTime := nextAttemptTime cb;
     config := config cb; providerName := providerName cb |}.

Definition set_lastFailureTime (x : Z) (cb : t) : t :=
  {| state := state cb; failureCount := failureCount cb;
     lastFailureTime := x;
     nextAttemptTime := nextAttemptTime cb;
     config := config cb; providerName := providerName cb |}.

Definition set_nextAttemptTime (x : Z) (cb : t) : t :=
  {| state := state cb; failureCount := failureCount cb;
     lastFailureTime := lastFailureTime cb;
     nextAttemptTime := x;
     config := config cb; providerName := providerName cb |}.

(** [canExecute()]: the answer and the breaker after the call. *)
Definition canExecute (now : Z) (cb : t) : bool * t :=
  match state cb with
  | CLOSED => (true, cb)
  | OPEN =>
      if nextAttemptTime cb <=? now
      then (true, set_state HALF_OPEN cb)
      else (false, cb)
  | HALF_OPEN => (true, cb)
  end.

Definition recordSuccess (cb : t) : t :=
  let cb := set_failureCount 0 cb in
  if decide (state cb = HALF_OPEN) then set_state CLOSED cb else cb.

Definition recordFailure (now : Z) (cb : t) : t :=
  (* reset failure count *)
  let cb := if monitoringWindow (config cb) <? now - lastFailureTime cb
            then set_failureCount 0 cb else cb in
  let cb := set_failureCount (failureCount cb + 1) cb in
  let cb := set_lastFailureTime now cb in
  (* trip the circuit on threshold *)
  let cb := if failureThreshold (config cb) <=? failureCount cb
            then set_nextAttemptTime (now + recoveryTimeout (config cb))
                   (set_state OPEN cb)
            else cb in
  (* after half-open, return to open *)
  if decide (state cb = HALF_OPEN)
  then set_nextAttemptTime (now + recoveryTimeout (config cb))
         (set_state OPEN cb)
  else cb.

(** [getStatus()]: [nextAttemptTime] is reported only when OPEN. *)
Record Status := mkStatus {
  st_providerName : string;
  st_state : CircuitState;
  st_failureCount : Z;
  st_nextAttemptTime : option Z;
  st_config : CircuitBreakerConfig
}.

Definition getStatus (cb : t) : Status :=
  {| st_providerName := providerName cb;
     st_state := state cb;
     st_failureCount := failureCount cb;
     st_nextAttemptTime :=
       if decide (state cb = OPEN) then Some (nextAttemptTime cb) else None;
     st_config := config cb |}.

Definition reset (cb : t) : t :=
  {| state := CLOSED; failureCount := 0; lastFailureTime := 0;
     nextAttemptTime := 0; config := config cb;
     providerName := providerName cb |}.

(** A run of [recordFailure] calls, one per reading of the clock. *)
Definition recordFailures (times : list Z) (cb : t) : t :=
  fold_left (fun b now => recordFailure now b) times cb.




(** Consecutive calls no more than [W] apart, the first one measured from
    [prev]. *)
Fixpoint closeTogether (W prev : Z) (times : list Z) : Prop :=
  match times with
  | [] => True
  | t :: rest => t - prev <= W /\ closeTogether W t rest
  end.

(** The mutating methods as data, to speak of arbitrary call sequences. *)
Inductive Call :=
| CanExecute (now : Z)
| RecordSuccess
| RecordFailure (now : Z)
| Reset.

Definition call (c : Call) (cb : t) : t :=
  match c with
  | CanExecute now => snd (canExecute now cb)
  | RecordSuccess => recordSuccess cb
  | RecordFailure now => recordFailure now cb
  | Reset => reset cb
  end.

Definition run (cs : list Call) (cb : t) : t :=
  fold_left (fun b c => call c b) cs cb.

(** Consecutive calls more than [W] apart, the first one measured from
    [prev]. *)
Fixpoint farApart (W prev : Z) (times : list Z) : Prop :=
  match times with
  | [] => True
  | t :: rest => W < t - prev /\ farApart W t rest
  end.

(** The counter is never negative, and a CLOSED breaker has counted fewer
    failures than its threshold. *)
Definition counted (cb : t) : Prop :=
  0 <= failureCount cb /\
  (state cb = CLOSED -> failureCount cb < failureThreshold (config cb)).

End CircuitBreaker.

(** ** models/RateWindow.ts and utils/RateLimiterCheck.ts *)

Module RateLimiter.

Record RateLimitWindow := mkWindow {
  timestamps : list Z;
  windowSize : Z;      (* in milliseconds *)
  maxRequests : Z
}.

(** The module-level singleton as it is created. *)
Definition rateLimitWindow : RateLimitWindow :=
  {| timestamps := []; windowSize := 60 * 1000; maxRequests := 10 |}.

Definition set_timestamps (ts : list Z) (w : RateLimitWindow) : RateLimitWindow :=
  {| timestamps := ts; windowSize := windowSize w;
     maxRequests := maxRequests w |}.

(** The predicate of the [filter] call: the timestamp is still in the
    window that ends at [now]. *)
Definition fresh (w : RateLimitWindow) (now timestamp : Z) : bool :=
  now - timestamp <? windowSize w.

(** [isRateLimited()]: prune, then reject, or record [now] and admit. *)
Definition isRateLimited (now : Z) (w : RateLimitWindow)
  : bool * RateLimitWindow :=
  let w := set_timestamps (List.filter (fresh w now) (timestamps w)) w in
  if maxRequests w <=? Z.of_nat (length (timestamps w))
  then (true, w)
  else (false, set_timestamps (timestamps w ++ [now]) w).

Record RateLimitStatus := mkRLStatus {
  currentRequests : Z;
  rl_maxRequests : Z;
  rl_windowSize : Z
}.

(** [getRateLimitStatus()] filters a copy and leaves the window alone. *)
Definition getRateLimitStatus (now : Z) (w : RateLimitWindow)
  : RateLimitStatus :=
  {| currentRequests :=
       Z.of_nat (length (List.filter (fresh w now) (timestamps w)));
     rl_maxRequests := maxRequests w;
     rl_windowSize := windowSize w |}.

(** A run of [isRateLimited] calls, one per reading of the clock: the
    answers in order and the final window. *)
Fixpoint calls (times : list Z) (w : RateLimitWindow)
  : list bool * RateLimitWindow :=
  match times with
  | [] => ([], w)
  | now :: rest =>
      let '(r, w1) := isRateLimited now w in
      let '(rs, w2) := calls rest w1 in
      (r :: rs, w2)
  end.

(** The clock readings of the calls that were admitted (answer [false]). *)
Fixpoint admitted (times : list Z) (answers : list bool) : list Z :=
  match times, answers with
  | t :: ts, false :: rs => t :: admitted ts rs
  | _ :: ts, true :: rs => admitted ts rs
  | _, _ => []
  end.

(** How many of [l] lie in the half-open interval [a, a + len). *)
Definition countIn (a len : Z) (l : list Z) : Z :=
  Z.of_nat (length (List.filter (fun t => (a <=? t) && (t <? a + len)) l)).

End RateLimiter.

(** ** utils/IdempotencyCheck.ts *)

Module Idempotency.

(** [SentRequests], a [Set<string>]. *)
Definition isDuplicate (requestid : string) (SentRequests : gset string) : bool :=
  bool_decide (requestid ∈ SentRequests).

Definition markAsSent (requestid : string) (SentRequests : gset string)
  : gset string :=
  {[requestid]} ∪ SentRequests.

End Idempotency.

(** ** models/EmailRequest.ts and models/EmailStatus.ts *)

Record EmailRequest := mkRequest {
  to : string;
  subject : string;
  body : string;
  requestId : string
}.

Record EmailStatus := mkEmailStatus {
  success : bool;
  providerUsed : option string;
  attempts : Z;
  errorMessage : option string;
  timestamp : Z;
  es_requestId : string
}.

(** [Omit<EmailStatus, 'timestamp' | 'requestId'>] *)
Record AttemptStatus := mkAttemptStatus {
  a_success : bool;
  a_providerUsed : option string;
  a_attempts : Z;
  a_errorMessage : option string
}.

(** ** The providers

    A provider's [sendEmail] draws [Math.random()] and either resolves or
    throws an [Error].  The draws are an oracle: the reply to the n-th call
    is given by a function of n, together with the time the call took. *)

Inductive SendResult :=
| Resolved
| Rejected (message : string).

Record Reply := mkReply {
  latency : Z;
  result : SendResult
}.

Record Provider := mkProvider {
  replies : nat -> Reply;
  callCount : nat
}.

Inductive Slot := SendGrid | Mailgun.

#[global] Instance Slot_eq_dec : EqDecision Slot.
Proof. solve_decision. Defined.

(** What an observer sees of a run: provider calls and timer waits. *)
Inductive Event :=
| Called (p : Slot)
| Waited (ms : Z).

(** ** services/EmailService.ts *)

Module EmailService.

Import CircuitBreaker.

(** The fields of the [EmailService] object. *)
Record t := mk {
  sendGridProvider : Provider;
  mailgunProvider : Provider;
  sendGridCircuitBreaker : CircuitBreaker.t;
  mailgunCircuitBreaker : CircuitBreaker.t;
  maxRetries : Z;
  baseDelay : Z
}.

(** The constructor; the two provider objects carry the oracle. *)
Definition new (sg mg : Provider) : t :=
  {| sendGridProvider := sg;
     mailgunProvider := mg;
     sendGridCircuitBreaker :=
       CircuitBreaker.new "SendGrid"
         {| p_failureThreshold := Some 3; p_recoveryTimeout := Some 30000;
            p_monitoringWindow := Some 60000 |};
     mailgunCircuitBreaker :=
       CircuitBreaker.new "Mailgun"
         {| p_failureThreshold := Some 3; p_recoveryTimeout := Some 30000;
            p_monitoringWindow := Some 60000 |};
     maxRetries := 3;
     baseDelay := 1000 |}.

(** Everything a call can read or change: the service object, the two
    module-level singletons, the clock and the observable events (oldest
    first). *)
Record World := mkWorld {
  service : t;
  SentRequests : gset string;
  rateLimitWindow : RateLimiter.RateLimitWindow;
  clock : Z;
  events : list Event
}.

Definition provider (s : Slot) (sv : t) : Provider :=
  match s with
  | SendGrid => sendGridProvider sv
  | Mailgun => mailgunProvider sv
  end.

Definition breaker (s : Slot) (sv : t) : CircuitBreaker.t :=
  match s with
  | SendGrid => sendGridCircuitBreaker sv
  | Mailgun => mailgunCircuitBreaker sv
  end.

Definition set_provider (s : Slot) (p : Provider) (sv : t) : t :=
  match s with
  | SendGrid =>
      {| sendGridProvider := p; mailgunProvider := mailgunProvider sv;
         sendGridCircuitBreaker := sendGridCircuitBreaker sv;
         mailgunCircuitBreaker := mailgunCircuitBreaker sv;
         maxRetries := maxRetries sv; baseDelay := baseDelay sv |}
  | Mailgun =>
      {| sendGridProvider := sendGridProvider sv; mailgunProvider := p;
         sendGridCircuitBreaker := sendGridCircuitBreaker sv;
         mailgunCircuitBreaker := mailgunCircuitBreaker sv;
         maxRetries := maxRetries sv; baseDelay := baseDelay sv |}
  end.

Definition set_breaker (s : Slot) (cb : CircuitBreaker.t) (sv : t) : t :=
  match s with
  | SendGrid =>
      {| sendGridProvider := sendGridProvider sv;
         mailgunProvider := mailgunProvider sv;
         sendGridCircuitBreaker := cb;
         mailgunCircuitBreaker := mailgunCircuitBreaker sv;
         maxRetries := maxRetries sv; baseDelay := baseDelay sv |}
  | Mailgun =>
      {| sendGridProvider := sendGridProvider sv;
         mailgunProvider := mailgunProvider sv;
         sendGridCircuitBreaker := sendGridCircuitBreaker sv;
         mailgunCircuitBreaker := cb;
         maxRetries := maxRetries sv; baseDelay := baseDelay sv |}
  end.

Definition set_service (sv : t) (w : World) : World :=
  {| service := sv; SentRequests := SentRequests w;
     rateLimitWindow := rateLimitWindow w; clock := clock w;
     events := events w |}.

Definition set_SentRequests (s : gset string) (w : World) : World :=
  {| service := service w; SentRequests := s;
     rateLimitWindow := rateLimitWindow w; clock := clock w;
     events := events w |}.

Definition set_rateLimitWindow (r : RateLimiter.RateLimitWindow) (w : World)
  : World :=
  {| service := service w; SentRequests := SentRequests w;
     rateLimitWindow := r; clock := clock w; events := events w |}.

Definition set_clock (c : Z) (w : World) : World :=
  {| service := service w; SentRequests := SentRequests w;
     rateLimitWindow := rateLimitWindow w; clock := c; events := events w |}.

Definition set_events (e : list Event) (w : World) : World :=
  {| service := service w; SentRequests := SentRequests w;
     rateLimitWindow := rateLimitWindow w; clock := clock w; events := e |}.

(** *** A state monad over the world *)

Definition M (A : Type) : Type := World -> A * World.

Definition ret {A} (a : A) : M A := fun w => (a, w).

Definition bind {A B} (c : M A) (k : A -> M B) : M B :=
  fun w => let '(a, w1) := c w in k a w1.

Notation "'do' x <- c ; k" := (bind c (fun x => k))
  (at level 10, x name, c at level 100, k at level 200).
Notation "c ;; k" := (bind c (fun _ => k))
  (at level 100, k at level 200, right associativity).

(** [Date.now()] *)
Definition DateNow : M Z := fun w => (clock w, w).

(** [this.delay(ms)]: the timer fires after [ms]. *)
Definition delay (ms : Z) : M unit :=
  fun w => (tt, set_events (events w ++ [Waited ms]) (set_clock (clock w + ms) w)).

(** A provider after one more call: the next draw is the next reply. *)
Definition called (p : Provider) : Provider :=
  {| replies := replies p; callCount := S (callCount p) |}.

(** [await provider.sendEmail(emailRequest)] on the provider in slot [s]. *)
Definition providerSendEmail (s : Slot) (email : EmailRequest) : M SendResult :=
  fun w =>
    let p := provider s (service w) in
    let r := replies p (callCount p) in
    (result r,
     set_events (events w ++ [Called s])
       (set_clock (clock w + latency r)
          (set_service (set_provider s (called p) (service w)) w))).

(** The breaker methods on the breaker in slot [s]. *)
Definition canExecute (s : Slot) : M bool :=
  fun w =>
    let '(r, cb) := CircuitBreaker.canExecute (clock w) (breaker s (service w)) in
    (r, set_service (set_breaker s cb (service w)) w).

Definition recordSuccess (s : Slot) : M unit :=
  fun w =>
    (tt, set_service
           (set_breaker s (CircuitBreaker.recordSuccess (breaker s (service w)))
              (service w)) w).

Definition recordFailure (s : Slot) : M unit :=
  fun w =>
    (tt, set_service
           (set_breaker s
              (CircuitBreaker.recordFailure (clock w) (breaker s (service w)))
              (service w)) w).

(** The two module-level singletons. *)
Definition isDuplicate (requestid : string) : M bool :=
  fun w => (Idempotency.isDuplicate requestid (SentRequests w), w).

Definition markAsSent (requestid : string) : M unit :=
  fun w => (tt, set_SentRequests
                  (Idempotency.markAsSent requestid (SentRequests w)) w).

Definition isRateLimited : M bool :=
  fun w =>
    let '(r, rl) := RateLimiter.isRateLimited (clock w) (rateLimitWindow w) in
    (r, set_rateLimitWindow rl w).

(** [calculateExponentialBackoff]: [baseDelay * Math.pow(2, attemptNumber)] *)
Definition calculateExponentialBackoff (sv : t) (attemptNumber : Z) : Z :=
  baseDelay sv * 2 ^ attemptNumber.

(** A value interpolated in a template literal. *)
Definition interpolate (o : option string) : string :=
  match o with
  | Some s => s
  | None => "undefined"
  end.

(** The [for] loop of [attemptSendWithCircuitBreaker], for a request that
    runs alone: nothing else touches the service during its awaits (the
    same loop among other requests is [attemptLoopAmong]).  [remaining] counts
    the iterations still to run, [maxRetries - i]; the loop variables are
    [i], [attempts] and [lastError].  The result is the status returned from
    inside the loop, or the loop variables when it runs to its end. *)
Fixpoint attemptLoop (remaining : nat) (s : Slot) (providerName : string)
    (emailRequest : EmailRequest) (i attempts : Z) (lastError : string)
  : M (AttemptStatus + Z * string) :=
  match remaining with
  | O => ret (inr (attempts, lastError))
  | S remaining' =>
      let attempts := attempts + 1 in
      do r <- providerSendEmail s emailRequest;
      match r with
      | Resolved =>
          recordSuccess s ;;
          ret (inl {| a_success := true;
                      a_providerUsed := Some providerName;
                      a_attempts := attempts;
                      a_errorMessage := None |})
      | Rejected message =>
          let lastError := message in
          do sv <- (fun w => (service w, w));
          (* don't wait after the last attempt *)
          (if i <? maxRetries sv - 1
           then delay (calculateExponentialBackoff sv i)
           else ret tt) ;;
          attemptLoop remaining' s providerName emailRequest (i + 1)
            attempts lastError
      end
  end.

Definition attemptSendWithCircuitBreaker (s : Slot) (providerName : string)
    (emailRequest : EmailRequest) : M AttemptStatus :=
  do ok <- canExecute s;
  if negb ok then
    ret {| a_success := false;
           a_providerUsed := Some providerName;
           a_attempts := 0;
           a_errorMessage :=
             Some ("Circuit breaker is OPEN - " +:+ providerName
                   +:+ " temporarily unavailable") |}
  else
    do sv <- (fun w => (service w, w));
    do r <- attemptLoop (Z.to_nat (maxRetries sv)) s providerName emailRequest
              0 0 "";
    match r with
    | inl status => ret status
    | inr (attempts, lastError) =>
        (* all retries failed *)
        recordFailure s ;;
        ret {| a_success := false;
               a_providerUsed := Some providerName;
               a_attempts := attempts;
               a_errorMessage := Some lastError |}
    end.

(** *** A send among other requests

    [attemptSendWithCircuitBreaker] gives up control at each [await]: while
    the provider call or the backoff timer is pending, other requests and
    handlers run on the same breakers and providers.  [Other] is what they
    can do there that this method can see; [env k] is what runs during the
    [await] numbered [k] (the provider call of iteration [i] is number
    [2 * i], the backoff after it number [2 * i + 1]). *)
Inductive Other :=
| BreakerCall (s : Slot) (c : CircuitBreaker.Call)
| ProviderCall (s : Slot)
| Pass (ms : Z).

Definition other (o : Other) (w : World) : World :=
  match o with
  | BreakerCall s c =>
      set_service
        (set_breaker s (CircuitBreaker.call c (breaker s (service w)))
           (service w)) w
  | ProviderCall s =>
      set_service
        (set_provider s (called (provider s (service w))) (service w)) w
  | Pass ms => set_clock (clock w + ms) w
  end.

Definition meanwhile (os : list Other) : M unit :=
  fun w => (tt, fold_left (fun w o => other o w) os w).

Fixpoint attemptLoopAmong (env : nat -> list Other) (remaining : nat)
    (s : Slot) (providerName : string) (emailRequest : EmailRequest)
    (i attempts : Z) (k : nat) (lastError : string)
  : M (AttemptStatus + Z * string) :=
  match remaining with
  | O => ret (inr (attempts, lastError))
  | S remaining' =>
      let attempts := attempts + 1 in
      do r <- providerSendEmail s emailRequest;
      meanwhile (env k) ;;
      match r with
      | Resolved =>
          recordSuccess s ;;
          ret (inl {| a_success := true;
                      a_providerUsed := Some providerName;
                      a_attempts := attempts;
                      a_errorMessage := None |})
      | Rejected message =>
          let lastError := message in
          do sv <- (fun w => (service w, w));
          (if i <? maxRetries sv - 1
           then delay (calculateExponentialBackoff sv i) ;;
                meanwhile (env (S k))
           else ret tt) ;;
          attemptLoopAmong env remaining' s providerName emailRequest (i + 1)
            attempts (S (S k)) lastError
      end
  end.

Definition attemptSendAmong (env : nat -> list Other) (s : Slot)
    (providerName : string) (emailRequest : EmailRequest) : M AttemptStatus :=
  do ok <- canExecute s;
  if negb ok then
    ret {| a_success := false;
           a_providerUsed := Some providerName;
           a_attempts := 0;
           a_errorMessage :=
             Some ("Circuit breaker is OPEN - " +:+ providerName
                   +:+ " temporarily unavailable") |}
  else
    do sv <- (fun w => (service w, w));
    do r <- attemptLoopAmong env (Z.to_nat (maxRetries sv)) s providerName
              emailRequest 0 0 0%nat "";
    match r with
    | inl status => ret status
    | inr (attempts, lastError) =>
        recordFailure s ;;
        ret {| a_success := false;
               a_providerUsed := Some providerName;
               a_attempts := attempts;
               a_errorMessage := Some lastError |}
    end.

(** No other request runs during any [await]. *)
Definition alone : nat -> list Other := fun _ => [].

(** [{...r, timestamp: startTime, requestId: ...}] *)
Definition withStamp (r : AttemptStatus) (startTime : Z) (rid : string)
  : EmailStatus :=
  {| success := a_success r;
     providerUsed := a_providerUsed r;
     attempts := a_attempts r;
     errorMessage := a_errorMessage r;
     timestamp := startTime;
     es_requestId := rid |}.

Definition sendEmail (emailRequest : EmailRequest) : M EmailStatus :=
  do startTime <- DateNow;
  (* check idempotency *)
  do dup <- isDuplicate (requestId emailRequest);
  if dup then
    ret {| success := false;
           providerUsed := None;
           attempts := 0;
           errorMessage := Some "Duplicate request - email already sent";
           timestamp := startTime;
           es_requestId := requestId emailRequest |}
  else
  (* check rate limiting *)
  do limited <- isRateLimited;
  if limited then
    ret {| success := false;
           providerUsed := None;
           attempts := 0;
           errorMessage := Some "Rate limit exceeded - please try again later";
           timestamp := startTime;
           es_requestId := requestId emailRequest |}
  else
  (* primary provider *)
  do primaryResult <-
    attemptSendWithCircuitBreaker SendGrid "SendGrid" emailRequest;
  if a_success primaryResult then
    markAsSent (requestId emailRequest) ;;
    ret (withStamp primaryResult startTime (requestId emailRequest))
  else
  (* fallback provider *)
  do fallbackResult <-
    attemptSendWithCircuitBreaker Mailgun "Mailgun" emailRequest;
  if a_success fallbackResult then
    markAsSent (requestId emailRequest) ;;
    ret (withStamp fallbackResult startTime (requestId emailRequest))
  else
  (* both providers failed or are circuit-broken *)
  ret {| success := false;
         providerUsed := Some "Both providers failed or unavailable";
         attempts := a_attempts primaryResult + a_attempts fallbackResult;
         errorMessage :=
           Some ("Primary: " +:+ interpolate (a_errorMessage primaryResult)
                 +:+ ", Fallback: "
                 +:+ interpolate (a_errorMessage fallbackResult));
         timestamp := startTime;
         es_requestId := requestId emailRequest |}.

(** [a || b] evaluates [b] only when [a] is false. *)
Definition isAnyProviderAvailable : M bool :=
  do a <- canExecute SendGrid;
  if a then ret true else canExecute Mailgun.

Definition getBestAvailableProvider : M (option string) :=
  do a <- canExecute SendGrid;
  if a then ret (Some "SendGrid") else
  do b <- canExecute Mailgun;
  if b then ret (Some "Mailgun") else ret None.

Definition resetCircuitBreakers : M unit :=
  fun w =>
    (tt, set_service
           (set_breaker Mailgun
              (CircuitBreaker.reset (mailgunCircuitBreaker (service w)))
              (set_breaker SendGrid
                 (CircuitBreaker.reset (sendGridCircuitBreaker (service w)))
                 (service w))) w).

Definition getCircuitBreakerStatus : M (CircuitBreaker.Status * CircuitBreaker.Status) :=
  fun w => ((CircuitBreaker.getStatus (sendGridCircuitBreaker (service w)),
             CircuitBreaker.getStatus (mailgunCircuitBreaker (service w))), w).

(** *** What a step on slot [s] leaves alone *)

(** The singletons, the retry parameters, the other slot's breaker and
    provider, and the oracle of slot [s] itself. *)
Record frame (s : Slot) (w w' : World) : Prop := mkFrame {
  frame_sent : SentRequests w' = SentRequests w;
  frame_window : rateLimitWindow w' = rateLimitWindow w;
  frame_maxRetries : maxRetries (service w') = maxRetries (service w);
  frame_baseDelay : baseDelay (service w') = baseDelay (service w);
  frame_breaker :
    forall s', s' <> s -> breaker s' (service w') = breaker s' (service w);
  frame_provider :
    forall s', s' <> s -> provider s' (service w') = provider s' (service w);
  frame_replies :
    replies (provider s (service w')) = replies (provider s (service w))
}.

(** *** Reading the oracle ahead *)

(** The next [n] replies, from call number [from] on, are all rejections. *)
Fixpoint allRejected (rs : nat -> Reply) (from n : nat) : bool :=
  match n with
  | O => true
  | S m =>
      match result (rs from) with
      | Rejected _ => allRejected rs (S from) m
      | Resolved => false
      end
  end.

(** The message of the last of those rejections, [dflt] when [n] is 0. *)
Fixpoint lastMessage (rs : nat -> Reply) (from n : nat) (dflt : string)
  : string :=
  match n with
  | O => dflt
  | S m =>
      match result (rs from) with
      | Rejected message => lastMessage rs (S from) m message
      | Resolved => dflt
      end
  end.

(** The provider in slot [s] cannot deliver from world [w]: its breaker
    denies the call, or it is admitted and every attempt is rejected. *)
Definition providerFails (s : Slot) (w : World) : bool :=
  negb (fst (canExecute s w))
  || allRejected (replies (provider s (service w)))
       (callCount (provider s (service w)))
       (Z.to_nat (maxRetries (service w))).

(** The attempts such a provider is charged with. *)
Definition failedAttempts (s : Slot) (w : World) : Z :=
  if fst (canExecute s w)
  then Z.of_nat (Z.to_nat (maxRetries (service w)))
  else 0.

(** The reason reported for it. *)
Definition failureReason (s : Slot) (providerName : string) (w : World)
  : string :=
  if fst (canExecute s w)
  then lastMessage (replies (provider s (service w)))
         (callCount (provider s (service w)))
         (Z.to_nat (maxRetries (service w))) ""
  else "Circuit breaker is OPEN - " +:+ providerName
       +:+ " temporarily unavailable".

(** [getServiceStatus()] *)
Record ServiceStatus := mkServiceStatus {
  ss_providers : list string;
  ss_maxRetries : Z;
  ss_baseDelay : Z;
  ss_sendGrid : CircuitBreaker.Status;
  ss_mailgun : CircuitBreaker.Status
}.

Definition getServiceStatus : M ServiceStatus :=
  fun w =>
    ({| ss_providers := ["SendGrid"; "Mailgun"];
        ss_maxRetries := maxRetries (service w);
        ss_baseDelay := baseDelay (service w);
        ss_sendGrid :=
          CircuitBreaker.getStatus (sendGridCircuitBreaker (service w));
        ss_mailgun :=
          CircuitBreaker.getStatus (mailgunCircuitBreaker (service w)) |}, w).

(** [getRateLimitStatus()] at the current clock. *)
Definition getRateLimitStatus : M RateLimiter.RateLimitStatus :=
  fun w => (RateLimiter.getRateLimitStatus (clock w) (rateLimitWindow w), w).

(** *** Measuring a trace *)

(** The number of calls made to the provider in slot [s]. *)
Fixpoint providerCalls (s : Slot) (es : list Event) : nat :=
  match es with
  | [] => 0
  | Called p :: rest =>
      ((if decide (p = s) then 1 else 0) + providerCalls s rest)%nat
  | Waited _ :: rest => providerCalls s rest
  end.

(** The timer waits, in order. *)
Fixpoint waits (es : list Event) : list Z :=
  match es with
  | [] => []
  | Called _ :: rest => waits rest
  | Waited ms :: rest => ms :: waits rest
  end.

(** The waits of a retry loop that starts at index [i] and has [n] turns to
    run, all of them rejected: one after every turn but the last. *)
Fixpoint backoffs (base i : Z) (n : nat) : list Z :=
  match n with
  | O => []
  | S O => []
  | S m => base * 2 ^ i :: backoffs base (i + 1) m
  end.

(** The events a step added: what [w'] has beyond [w]. *)
Definition during (w w' : World) : list Event :=
  drop (length (events w)) (events w').

(** Every provider call in the trace went to slot [s]. *)
Definition onlySlot (s : Slot) (es : list Event) : Prop :=
  Forall (fun ev => match ev with
                    | Called p => p = s
                    | Waited _ => True
                    end) es.

(** The attempt count a retry loop ends with. *)
Definition loopAttempts (r : AttemptStatus + Z * string) : Z :=
  match r with
  | inl status => a_attempts status
  | inr (attempts, _) => attempts
  end.

(** The intermediate values of [sendEmail] once both admission checks have
    passed: [primaryResult] and [fallbackResult], each with the world its
    computation leaves. *)
Definition primaryRun (req : EmailRequest) (w : World)
  : AttemptStatus * World :=
  attemptSendWithCircuitBreaker SendGrid "SendGrid" req
    (snd (isRateLimited w)).

Definition fallbackRun (req : EmailRequest) (w : World)
  : AttemptStatus * World :=
  attemptSendWithCircuitBreaker Mailgun "Mailgun" req (snd (primaryRun req w)).

(** The two early returns of [sendEmail]. *)
Definition duplicateStatus (req : EmailRequest) (w : World) : EmailStatus :=
  {| success := false;
     providerUsed := None;
     attempts := 0;
     errorMessage := Some "Duplicate request - email already sent";
     timestamp := clock w;
     es_requestId := requestId req |}.

Definition rateLimitedStatus (req : EmailRequest) (w : World) : EmailStatus :=
  {| success := false;
     providerUsed := None;
     attempts := 0;
     errorMessage := Some "Rate limit exceeded - please try again later";
     timestamp := clock w;
     es_requestId := requestId req |}.

End EmailService.

(** ** index.ts: the HTTP handlers (the version with circuit breakers)

    [req.body] is the object [express.json()] has parsed; each of the four
    fields is a string or is absent.  A response is the status code passed
    to [res.status] (200 when [res.json] is called directly) and the object
    passed to [res.json].  Nothing in the model throws, provider errors
    being caught inside [sendEmail], so the handlers' [catch] branches (the
    500 answers) are never taken and are left out. *)

Module Server.

Import EmailService.

Record Body := mkBody {
  b_to : option string;
  b_subject : option string;
  b_body : option string;
  b_requestId : option string
}.

(** [!x] for a value that is a string or [undefined]. *)
Definition falsy (o : option string) : bool :=
  match o with
  | None => true
  | Some s => bool_decide (s = "")
  end.

(** The body read as an [EmailRequest] once the four fields are known to be
    there. *)
Definition asRequest (b : Body) : EmailRequest :=
  {| to := default "" (b_to b);
     subject := default "" (b_subject b);
     body := default "" (b_body b);
     requestId := default "" (b_requestId b) |}.

Inductive Payload :=
| MissingFields (error : string)
| Unavailable (error message : string) (availableProvider : option string)
| Result (result : EmailStatus).

Record Response := mkResponse {
  statusCode : Z;
  payload : Payload
}.

(** *** Time between clock readings

    Every [canExecute] and every [getRateLimitStatus] reads [Date.now()]
    for itself, so the clock may have moved on between two readings made
    by one handler.  A handler takes [el], the time that elapses before each
    of its readings: [el n] passes just before the reading numbered [n]. *)

Definition tick (d : Z) : M unit :=
  fun w => (tt, set_clock (clock w + d) w).

(** [emailService.isAnyProviderAvailable()], its two readings numbered [n]
    and [n + 1]. *)
Definition isAnyProviderAvailableAt (el : nat -> Z) (n : nat) : M bool :=
  tick (el n) ;;
  do a <- canExecute SendGrid;
  if a then ret true else
  tick (el (S n)) ;;
  canExecute Mailgun.

(** [emailService.getBestAvailableProvider()], its two readings numbered
    [n] and [n + 1]. *)
Definition getBestAvailableProviderAt (el : nat -> Z) (n : nat)
  : M (option string) :=
  tick (el n) ;;
  do a <- canExecute SendGrid;
  if a then ret (Some "SendGrid") else
  tick (el (S n)) ;;
  do b <- canExecute Mailgun;
  if b then ret (Some "Mailgun") else ret None.

(** [app.post('/send-email', ...)] *)
Definition postSendEmail (b : Body) (el : nat -> Z) : M Response :=
  (* basic validation *)
  if falsy (b_to b) || falsy (b_subject b) || falsy (b_body b)
     || falsy (b_requestId b)
  then
    ret {| statusCode := 400;
           payload :=
             MissingFields
               "Missing required fields: to, subject, body, requestId" |}
  else
  let emailRequest := asRequest b in
  (* check if any provider is available before attempting to send *)
  do available <- isAnyProviderAvailableAt el 0%nat;
  if negb available then
    do best <- getBestAvailableProviderAt el 2%nat;
    ret {| statusCode := 503;
           payload :=
             Unavailable "Service temporarily unavailable"
               "All email providers are currently unavailable due to circuit breaker protection"
               best |}
  else
  tick (el 2%nat) ;;
  do result <- sendEmail emailRequest;
  ret {| statusCode := if success result then 200 else 400;
         payload := Result result |}.

(** [app.get('/health', ...)] *)
Record Health := mkHealth {
  h_status : string;
  h_service : ServiceStatus;
  h_rateLimit : RateLimiter.RateLimitStatus;
  h_availableProviders : list (option string)
}.

Definition getHealth (el : nat -> Z) : M (Z * Health) :=
  do serviceStatus <- getServiceStatus;
  do isHealthy <- isAnyProviderAvailableAt el 0%nat;
  do rateLimit <- (tick (el 2%nat) ;; getRateLimitStatus);
  do best <- getBestAvailableProviderAt el 3%nat;
  do providers <-
    (match best with
     | Some _ => do again <- getBestAvailableProviderAt el 5%nat; ret [again]
     | None => ret []
     end);
  ret (if isHealthy then 200 else 503,
       {| h_status := if isHealthy then "OK" else "DEGRADED";
          h_service := serviceStatus;
          h_rateLimit := rateLimit;
          h_availableProviders := providers |}).

(** [app.post('/admin/reset-circuit-breakers', ...)]: the breakers as
    reported in the response. *)
Definition postResetCircuitBreakers
  : M (CircuitBreaker.Status * CircuitBreaker.Status) :=
  resetCircuitBreakers ;;
  getCircuitBreakerStatus.

(** [app.get('/providers/status', ...)] *)
Record ProvidersStatus := mkProvidersStatus {
  ps_anyProviderAvailable : bool;
  ps_bestAvailableProvider : option string;
  ps_circuitBreakers : CircuitBreaker.Status * CircuitBreaker.Status
}.

Definition getProvidersStatus (el : nat -> Z) : M ProvidersStatus :=
  do any <- isAnyProviderAvailableAt el 0%nat;
  do best <- getBestAvailableProviderAt el 2%nat;
  do breakers <- getCircuitBreakerStatus;
  ret {| ps_anyProviderAvailable := any;
         ps_bestAvailableProvider := best;
         ps_circuitBreakers := breakers |}.

(** What a step keeps when it can only move breakers and the clock. *)
Definition keepsStores (w w' : World) : Prop :=
  SentRequests w' = SentRequests w /\
  rateLimitWindow w' = rateLimitWindow w /\
  events w' = events w /\
  sendGridProvider (service w') = sendGridProvider (service w) /\
  mailgunProvider (service w') = mailgunProvider (service w).

(** No time passes. *)
Definition atOnce : nat -> Z := fun _ => 0.

End Server.

(** * Proof automation *)

(** Case analysis on every test a breaker method makes. *)
Ltac breaker_cases :=
  repeat match goal with
         | |- context [?x <? ?y] => destruct (Z.ltb_spec x y)
         | |- context [?x <=? ?y] => destruct (Z.leb_spec x y)
         | H : context [?x <? ?y] |- _ => destruct (Z.ltb_spec x y)
         | H : context [?x <=? ?y] |- _ => destruct (Z.leb_spec x y)
         end.

(** * Sample inputs *)

(** A breaker as the constructor makes it when no configuration is passed. *)
Definition defaultBreaker : CircuitBreaker.t :=
  CircuitBreaker.new "SendGrid" (mkPartial None None None).

(** The same breaker after three failures one second apart: OPEN until
    33000. *)
Definition openBreaker : CircuitBreaker.t :=
  CircuitBreaker.recordFailures [1000; 2000; 3000] defaultBreaker.

(** ... and after a [canExecute] once the recovery timeout has passed. *)
Definition halfOpenBreaker : CircuitBreaker.t :=
  snd (CircuitBreaker.canExecute 33000 openBreaker).

(** A provider that rejects every call, and one that accepts its second. *)
Definition alwaysRejects (message : string) : Provider :=
  {| replies := fun _ => {| latency := 5; result := Rejected message |};
     callCount := 0 |}.

Definition acceptsSecond (message : string) : Provider :=
  {| replies := fun n =>
       match n with
       | 1%nat => {| latency := 7; result := Resolved |}
       | _ => {| latency := 5; result := Rejected message |}
       end;
     callCount := 0 |}.

Definition sampleRequest : EmailRequest :=
  {| to := "user@example.com"; subject := "Hello"; body := "Hi there";
     requestId := "req-1" |}.

(** The process just after start-up, at some reading of the clock. *)
Definition startWorld (sg mg : Provider) (now : Z) : EmailService.World :=
  {| EmailService.service := EmailService.new sg mg;
     EmailService.SentRequests := ∅;
     EmailService.rateLimitWindow := RateLimiter.rateLimitWindow;
     EmailService.clock := now;
     EmailService.events := [] |}.

Definition worldFallback : EmailService.World :=
  startWorld (alwaysRejects "SendGrid failed to send email")
    (acceptsSecond "Mailgun failed to send email") 1000000.

Definition worldBothFail : EmailService.World :=
  startWorld (alwaysRejects "SendGrid failed to send email")
    (alwaysRejects "Mailgun failed to send email") 1000000.

(** [worldFallback] after [sampleRequest] has been sent. *)
Definition worldAfterSend : EmailService.World :=
  snd (EmailService.sendEmail sampleRequest worldFallback).

Definition openMailgunBreaker : CircuitBreaker.t :=
  CircuitBreaker.recordFailures [1000; 2000; 3000]
    (CircuitBreaker.new "Mailgun" (mkPartial None None None)).

(** Both breakers OPEN until 33000, the clock at 10000. *)
Definition worldBothOpen : EmailService.World :=
  EmailService.set_service
    (EmailService.set_breaker Mailgun openMailgunBreaker
       (EmailService.set_breaker SendGrid openBreaker
          (EmailService.new (alwaysRejects "SendGrid failed to send email")
             (alwaysRejects "Mailgun failed to send email"))))
    (startWorld (alwaysRejects "SendGrid failed to send email")
       (alwaysRejects "Mailgun failed to send email") 10000).

(** SendGrid CLOSED, Mailgun OPEN with its recovery timeout long past. *)
Definition worldMailgunRecovering : EmailService.World :=
  EmailService.set_service
    (EmailService.set_breaker Mailgun openMailgunBreaker
       (EmailService.new (alwaysRejects "SendGrid failed to send email")
          (alwaysRejects "Mailgun failed to send email")))
    (startWorld (alwaysRejects "SendGrid failed to send email")
       (alwaysRejects "Mailgun failed to send email") 50000).

(** Twelve calls within one second. *)
Definition burst : list Z :=
  [0; 10; 20; 30; 40; 50; 60; 70; 80; 90; 100; 110].

(** The limiter's window already full: ten requests in the last second. *)
Definition worldSaturated : EmailService.World :=
  EmailService.set_rateLimitWindow
    (snd (RateLimiter.calls burst RateLimiter.rateLimitWindow))
    (startWorld (alwaysRejects "SendGrid failed to send email")
       (alwaysRejects "Mailgun failed to send email") 200).

(** SendGrid OPEN with its recovery timeout long past, Mailgun CLOSED. *)
Definition worldSendGridRecovering : EmailService.World :=
  EmailService.set_service
    (EmailService.set_breaker SendGrid openBreaker
       (EmailService.new (alwaysRejects "SendGrid failed to send email")
          (alwaysRejects "Mailgun failed to send email")))
    (startWorld (alwaysRejects "SendGrid failed to send email")
       (alwaysRejects "Mailgun failed to send email") 50000).

(** While the second Mailgun call of a send is pending, five other sends
    exhaust their retries on Mailgun and record their failures. *)
Definition fiveFailuresMeanwhile : nat -> list EmailService.Other :=
  fun k =>
    match k with
    | 2%nat =>
        repeat (EmailService.BreakerCall Mailgun
                  (CircuitBreaker.RecordFailure 1001100)) 5
    | _ => []
    end.

(** Both breakers OPEN until 33000, the clock at 32990. *)
Definition worldBothOpenLate : EmailService.World :=
  EmailService.set_clock 32990 worldBothOpen.

(** * Properties *)

(** ** The circuit breaker *)

Section BreakerFacts.

Import CircuitBreaker.

(** What one [recordFailure] does to a breaker that is CLOSED. *)
Lemma recordFailure_closed (now : Z) (cb : CircuitBreaker.t) :
  state cb = CLOSED ->
  let c := (if monitoringWindow (config cb) <? now - lastFailureTime cb
            then 0 else failureCount cb) + 1 in
  recordFailure now cb =
    if failureThreshold (config cb) <=? c
    then CircuitBreaker.mk OPEN c now (now + recoveryTimeout (config cb))
           (config cb) (providerName cb)
    else CircuitBreaker.mk CLOSED c now (nextAttemptTime cb)
           (config cb) (providerName cb).
Proof.
  destruct cb as [s n l a cfg nm]; simpl; intros ->.
  unfold recordFailure; simpl.
  destruct (monitoringWindow cfg <? now - l); simpl;
    match goal with |- context [?x <=? ?y] => destruct (x <=? y) end;
    reflexivity.
Qed.

Lemma recordFailure_config (now : Z) (cb : CircuitBreaker.t) :
  config (recordFailure now cb) = config cb.
Proof.
  destruct cb as [s n l a cfg nm]. unfold recordFailure; simpl.
  destruct (monitoringWindow cfg <? now - l); simpl;
    match goal with |- context [?x <=? ?y] => destruct (x <=? y) end;
    simpl; destruct s; reflexivity.
Qed.

(** Below the threshold nothing trips, whatever the spacing of the calls. *)
Lemma recordFailures_below (times : list Z) :
  forall cb : CircuitBreaker.t,
  state cb = CLOSED ->
  0 <= failureCount cb ->
  failureCount cb + Z.of_nat (length times) < failureThreshold (config cb) ->
  state (recordFailures times cb) = CLOSED.
Proof.
  unfold recordFailures.
  induction times as [|now rest IH]; intros cb Hst Hge Hlt; simpl.
  - exact Hst.
  - pose proof (recordFailure_closed now cb Hst) as E; simpl in E.
    apply IH; rewrite ?recordFailure_config.
    + rewrite E. destruct (monitoringWindow _ <? _);
        match goal with |- context [?x <=? ?y] => destruct (Z.leb_spec x y) end;
        simpl; try reflexivity; rewrite length_cons in Hlt; lia.
    + rewrite E. destruct (monitoringWindow _ <? _);
        match goal with |- context [?x <=? ?y] => destruct (x <=? y) end;
        simpl; lia.
    + rewrite length_cons in Hlt.
      rewrite E. destruct (monitoringWindow _ <? _);
        match goal with |- context [?x <=? ?y] => destruct (x <=? y) end;
        simpl; lia.
Qed.

Lemma pairwise_closeTogether (W : Z) (times : list Z) :
  forall prev,
  (forall t t', In t (prev :: times) -> In t' (prev :: times) -> t' - t <= W) ->
  closeTogether W prev times.
Proof.
  induction times as [|u rest IH]; intros prev H; simpl; [exact I|].
  split.
  - apply H; simpl; auto.
  - apply IH. intros t t' Ht Ht'. apply H; simpl; simpl in Ht, Ht'; tauto.
Qed.

End BreakerFacts.

Section BreakerClaims.

Import CircuitBreaker.

(** Within the window, the failure that brings the counter to the threshold
    opens the circuit and sets the next attempt time from that call. *)
Lemma recordFailures_trip (times : list Z) :
  forall cb : CircuitBreaker.t,
  state cb = CLOSED ->
  closeTogether (monitoringWindow (config cb)) (lastFailureTime cb) times ->
  times <> [] ->
  failureCount cb + Z.of_nat (length times) = failureThreshold (config cb) ->
  let cb' := recordFailures times cb in
  state cb' = OPEN /\
  nextAttemptTime cb' = List.last times 0 + recoveryTimeout (config cb).
Proof.
  unfold recordFailures.
  induction times as [|now rest IH]; intros cb Hst Hclose Hne Hlen;
    [congruence|].
  destruct Hclose as [Hgap Hclose]. rewrite length_cons in Hlen.
  pose proof (recordFailure_closed now cb Hst) as E; simpl in E.
  destruct (Z.ltb_spec (monitoringWindow (config cb))
              (now - lastFailureTime cb)) as [Hbad|_]; [lia|].
  cbn [fold_left]. rewrite E. clear E.
  destruct rest as [|u rest].
  - destruct (Z.leb_spec (failureThreshold (config cb)) (failureCount cb + 1))
      as [_|Hbad]; [|simpl in Hlen; lia].
    simpl. split; reflexivity.
  - destruct (Z.leb_spec (failureThreshold (config cb)) (failureCount cb + 1))
      as [Hbad|_]; [rewrite length_cons in Hlen; lia|].
    change (List.last (now :: u :: rest) 0) with (List.last (u :: rest) 0).
    apply (IH (CircuitBreaker.mk CLOSED (failureCount cb + 1) now
                 (nextAttemptTime cb) (config cb) (providerName cb)));
      simpl; try assumption; try reflexivity; try congruence.
    simpl in Hlen. lia.
Qed.

(** C1.  A breaker that starts CLOSED with nothing counted and records
    exactly [failureThreshold] failures, all within [monitoringWindow] of
    one another, is OPEN afterwards with [nextAttemptTime] equal to the time
    of the last call plus [recoveryTimeout]; after one failure fewer it is
    still CLOSED. *)
Theorem threshold_failures_open_circuit
    (cb : CircuitBreaker.t) (times : list Z) :
  state cb = CLOSED ->
  failureCount cb = 0 ->
  1 <= failureThreshold (config cb) ->
  Z.of_nat (length times) = failureThreshold (config cb) ->
  (forall t t', In t times -> In t' times ->
                t' - t <= monitoringWindow (config cb)) ->
  (state (recordFailures times cb) = OPEN /\
   nextAttemptTime (recordFailures times cb)
     = List.last times 0 + recoveryTimeout (config cb)) /\
  (forall fewer : list Z,
     Z.of_nat (length fewer) = failureThreshold (config cb) - 1 ->
     state (recordFailures fewer cb) = CLOSED).
Proof.
  intros Hst Hzero Hpos Hlen Hpair. split.
  - destruct times as [|t0 rest]; [simpl in Hlen; lia|].
    rewrite length_cons in Hlen.
    pose proof (recordFailure_closed t0 cb Hst) as E; simpl in E.
    rewrite Hzero in E.
    assert (E' : recordFailure t0 cb =
                 if failureThreshold (config cb) <=? 1
                 then CircuitBreaker.mk OPEN 1 t0
                        (t0 + recoveryTimeout (config cb))
                        (config cb) (providerName cb)
                 else CircuitBreaker.mk CLOSED 1 t0 (nextAttemptTime cb)
                        (config cb) (providerName cb)).
    { rewrite E. destruct (monitoringWindow _ <? _); reflexivity. }
    clear E. unfold recordFailures. cbn [fold_left]. rewrite E'. clear E'.
    destruct rest as [|u rest].
    + destruct (Z.leb_spec (failureThreshold (config cb)) 1) as [_|Hbad];
        [|simpl in Hlen; lia].
      simpl. split; reflexivity.
    + destruct (Z.leb_spec (failureThreshold (config cb)) 1) as [Hbad|_];
        [rewrite length_cons in Hlen; lia|].
      change (List.last (t0 :: u :: rest) 0) with (List.last (u :: rest) 0).
      apply (recordFailures_trip (u :: rest)
               (CircuitBreaker.mk CLOSED 1 t0 (nextAttemptTime cb)
                  (config cb) (providerName cb)));
        simpl; try reflexivity; try congruence.
      * apply (pairwise_closeTogether _ (u :: rest) t0). exact Hpair.
      * simpl in Hlen. lia.
  - intros fewer Hfewer. apply recordFailures_below; [assumption|lia|lia].
Qed.

(** The constructed breaker with its default configuration, three failures
    one second apart. *)
Lemma threshold_failures_open_circuit_witness :
  (state (recordFailures [1000; 2000; 3000] defaultBreaker) = OPEN /\
   nextAttemptTime (recordFailures [1000; 2000; 3000] defaultBreaker)
     = 3000 + 30000) /\
  (forall fewer : list Z,
     Z.of_nat (length fewer) = 3 - 1 ->
     state (recordFailures fewer defaultBreaker) = CLOSED).
Proof.
  apply (threshold_failures_open_circuit defaultBreaker [1000; 2000; 3000]).
  - reflexivity.
  - reflexivity.
  - simpl. lia.
  - reflexivity.
  - intros t t' [<-|[<-|[<-|[]]]] [<-|[<-|[<-|[]]]]; simpl; lia.
Defined.









(** C3.  From HALF_OPEN one [recordFailure] gives OPEN with
    [nextAttemptTime = now + recoveryTimeout], whatever the counter and the
    threshold are; one [recordSuccess] gives CLOSED with a zero counter. *)
Theorem half_open_probe_outcome (cb : CircuitBreaker.t) (now : Z) :
  state cb = HALF_OPEN ->
  (state (recordFailure now cb) = OPEN /\
   nextAttemptTime (recordFailure now cb)
     = now + recoveryTimeout (config cb)) /\
  (state (recordSuccess cb) = CLOSED /\
   failureCount (recordSuccess cb) = 0).
Proof.
  destruct cb as [s n l a cfg nm]; simpl; intros ->.
  unfold recordFailure, recordSuccess; simpl.
  destruct (monitoringWindow cfg <? now - l); simpl;
    match goal with |- context [?x <=? ?y] => destruct (x <=? y) end;
    simpl; repeat split; reflexivity.
Qed.

Lemma half_open_probe_outcome_witness :
  (state (recordFailure 40000 halfOpenBreaker) = OPEN /\
   nextAttemptTime (recordFailure 40000 halfOpenBreaker) = 40000 + 30000) /\
  (state (recordSuccess halfOpenBreaker) = CLOSED /\
   failureCount (recordSuccess halfOpenBreaker) = 0).
Proof.
  apply (half_open_probe_outcome halfOpenBreaker 40000). reflexivity.
Defined.

End BreakerClaims.

(** ** The rate limiter *)

Section RateLimiterFacts.

Import RateLimiter.

Lemma isRateLimited_unfold (now : Z) (w : RateLimitWindow) :
  isRateLimited now w =
    let l := List.filter (fresh w now) (timestamps w) in
    if maxRequests w <=? Z.of_nat (length l)
    then (true, set_timestamps l w)
    else (false, set_timestamps (l ++ [now]) w).
Proof.
  unfold isRateLimited; simpl.
  destruct (maxRequests w <=? _); reflexivity.
Qed.

Lemma isRateLimited_params (now : Z) (w : RateLimitWindow) :
  windowSize (snd (isRateLimited now w)) = windowSize w /\
  maxRequests (snd (isRateLimited now w)) = maxRequests w.
Proof.
  rewrite isRateLimited_unfold; simpl.
  destruct (maxRequests w <=? _); split; reflexivity.
Qed.

Lemma calls_params (times : list Z) :
  forall w : RateLimitWindow,
  windowSize (snd (calls times w)) = windowSize w /\
  maxRequests (snd (calls times w)) = maxRequests w.
Proof.
  induction times as [|t rest IH]; intros w; [split; reflexivity|].
  cbn [calls]. destruct (isRateLimited_params t w) as [H1 H2].
  destruct (isRateLimited t w) as [r w1]. specialize (IH w1).
  destruct (calls rest w1) as [rs w2]. simpl in *.
  destruct IH; split; congruence.
Qed.

Lemma calls_length (times : list Z) :
  forall w : RateLimitWindow, length (fst (calls times w)) = length times.
Proof.
  induction times as [|t rest IH]; intros w; [reflexivity|].
  cbn [calls]. destruct (isRateLimited t w) as [r w1]. specialize (IH w1).
  destruct (calls rest w1) as [rs w2]. simpl in *. congruence.
Qed.

Lemma calls_app (l1 l2 : list Z) :
  forall w : RateLimitWindow,
  calls (l1 ++ l2) w =
    (fst (calls l1 w) ++ fst (calls l2 (snd (calls l1 w))),
     snd (calls l2 (snd (calls l1 w)))).
Proof.
  induction l1 as [|t l1 IH]; intros w.
  - simpl. destruct (calls l2 w); reflexivity.
  - cbn [calls app]. destruct (isRateLimited t w) as [r w1].
    rewrite IH. destruct (calls l1 w1) as [rs w2]. reflexivity.
Qed.

Lemma admitted_app (l1 l2 : list Z) (r2 : list bool) :
  forall r1 : list bool,
  length r1 = length l1 ->
  admitted (l1 ++ l2) (r1 ++ r2) = admitted l1 r1 ++ admitted l2 r2.
Proof.
  induction l1 as [|t l1 IH]; intros [|r r1] Hlen; try discriminate.
  - reflexivity.
  - simpl in Hlen. injection Hlen as Hlen. cbn [app admitted].
    rewrite (IH r1 Hlen). destruct r; reflexivity.
Qed.

(** The fresh test depends on the window only through its size. *)
Lemma fresh_same_size (w w' : RateLimitWindow) :
  windowSize w = windowSize w' -> fresh w = fresh w'.
Proof. unfold fresh. intros ->. reflexivity. Qed.

(** Pruning at an earlier time loses nothing a later pruning would keep. *)
Lemma filter_fresh_later (w : RateLimitWindow) (t now : Z) (l : list Z) :
  t <= now ->
  List.filter (fresh w now) (List.filter (fresh w t) l)
    = List.filter (fresh w now) l.
Proof.
  intros Hle. induction l as [|x l IH]; [reflexivity|].
  cbn [List.filter].
  destruct (fresh w t x) eqn:E1; cbn [List.filter];
    destruct (fresh w now x) eqn:E2; rewrite ?IH; try reflexivity.
  unfold fresh in E1, E2.
  apply Z.ltb_ge in E1. apply Z.ltb_lt in E2. lia.
Qed.

Lemma sublist_List_filter (f : Z -> bool) (l : list Z) :
  List.filter f l `sublist_of` l.
Proof.
  induction l as [|x l IH]; [constructor|].
  simpl. destruct (f x); [apply sublist_skip | apply sublist_cons]; exact IH.
Qed.

Lemma filter_length_le (f g : Z -> bool) (l : list Z) :
  (forall x, In x l -> f x = true -> g x = true) ->
  (length (List.filter f l) <= length (List.filter g l))%nat.
Proof.
  induction l as [|x l IH]; intros H; [reflexivity|].
  assert (IH' := IH (fun y Hy => H y (or_intror Hy))).
  pose proof (H x (or_introl eq_refl)) as Hx.
  simpl. destruct (f x); [rewrite (Hx eq_refl)|destruct (g x)]; simpl; lia.
Qed.

Lemma calls_snoc (times : list Z) (t : Z) (w : RateLimitWindow) :
  calls (times ++ [t]) w =
    (fst (calls times w) ++ [fst (isRateLimited t (snd (calls times w)))],
     snd (isRateLimited t (snd (calls times w)))).
Proof.
  rewrite calls_app. cbn [calls].
  destruct (isRateLimited t (snd (calls times w))); reflexivity.
Qed.

Lemma countIn_app (a len : Z) (l1 l2 : list Z) :
  countIn a len (l1 ++ l2) = countIn a len l1 + countIn a len l2.
Proof. unfold countIn. rewrite List.filter_app, length_app. lia. Qed.

(** What holds after every run of calls made at non-decreasing times from
    the empty window. *)
Lemma calls_invariant (w0 : RateLimitWindow) :
  timestamps w0 = [] ->
  0 <= maxRequests w0 ->
  forall times : list Z,
  StronglySorted Z.le times ->
  (forall now, Forall (fun t => t <= now) times ->
     List.filter (fresh w0 now) (timestamps (snd (calls times w0)))
       = List.filter (fresh w0 now) (admitted times (fst (calls times w0)))) /\
  (forall a, countIn a (windowSize w0) (admitted times (fst (calls times w0)))
             <= maxRequests w0) /\
  timestamps (snd (calls times w0))
    `sublist_of` admitted times (fst (calls times w0)).
Proof.
  intros Hempty Hmax times.
  induction times as [|t times IH] using rev_ind; intros Hsorted.
  - simpl. rewrite Hempty. repeat split; try reflexivity.
    intros a. unfold countIn. simpl. lia.
  - apply StronglySorted_app in Hsorted as (Hle & Hs & _).
    destruct (IH Hs) as (I3 & I4 & I5). clear IH.
    assert (Hpre : Forall (fun u => u <= t) times).
    { apply Forall_forall. intros u Hu. apply Hle; [exact Hu|]. left. }
    rewrite calls_snoc. cbn [fst snd].
    rewrite admitted_app by apply calls_length.
    destruct (calls_params times w0) as [HW HM].
    set (w := snd (calls times w0)) in *.
    set (A := admitted times (fst (calls times w0))) in *.
    rewrite isRateLimited_unfold. cbn zeta.
    rewrite (fresh_same_size w w0 HW), HM.
    destruct (Z.leb_spec (maxRequests w0)
                (Z.of_nat (length (List.filter (fresh w0 t) (timestamps w)))))
      as [Hfull|Hroom]; cbn [fst snd admitted timestamps set_timestamps].
    + rewrite app_nil_r. repeat split.
      * intros now Hnow. apply Forall_app in Hnow as [Hnow1 Hnow2].
        rewrite filter_fresh_later by (inversion Hnow2; assumption).
        apply I3, Hnow1.
      * exact I4.
      * etrans; [apply sublist_List_filter|exact I5].
    + repeat split.
      * intros now Hnow. apply Forall_app in Hnow as [Hnow1 Hnow2].
        rewrite !List.filter_app.
        rewrite filter_fresh_later by (inversion Hnow2; assumption).
        rewrite (I3 now Hnow1). reflexivity.
      * intros a. rewrite countIn_app.
        destruct (decide (a <= t < a + windowSize w0)) as [Hin|Hout].
        -- assert (countIn a (windowSize w0) A
                   <= Z.of_nat (length (List.filter (fresh w0 t) A))).
           { unfold countIn. apply inj_le, filter_length_le.
             intros x _ Hx. unfold fresh.
             apply andb_true_iff in Hx as [Hx1 Hx2].
             apply Z.leb_le in Hx1. apply Z.ltb_lt. lia. }
           rewrite <- (I3 t Hpre) in H.
           assert (countIn a (windowSize w0) [t] <= 1).
           { unfold countIn. simpl. destruct (_ && _); simpl; lia. }
           lia.
        -- assert (countIn a (windowSize w0) [t] = 0).
           { unfold countIn. simpl.
             destruct (Z.leb_spec a t); destruct (Z.ltb_spec t (a + windowSize w0));
               simpl; lia. }
           specialize (I4 a). lia.
      * apply sublist_app; [|reflexivity].
        etrans; [apply sublist_List_filter|exact I5].
Qed.

(** C7.  From the empty window, over any run of [isRateLimited] calls made
    at non-decreasing times: (1) no interval of length [windowSize] holds
    the timestamps of more than [maxRequests] admitted calls; (2) a call is
    rejected exactly when [maxRequests] or more of the calls admitted before
    it are still inside the window that ends at it, so rejection lasts until
    the oldest of them ages out; (3) the recorded timestamps are drawn from
    the admitted calls only, a rejected call records nothing. *)
Theorem rate_limiter_bounds_admitted_calls
    (w0 : RateLimitWindow) (times : list Z) :
  timestamps w0 = [] ->
  0 <= maxRequests w0 ->
  Sorted Z.le times ->
  (forall a, countIn a (windowSize w0) (admitted times (fst (calls times w0)))
             <= maxRequests w0) /\
  (forall pre t post, times = pre ++ t :: post ->
     fst (calls times w0) !! length pre =
       Some (maxRequests w0 <=?
               Z.of_nat (length (List.filter (fresh w0 t)
                                   (admitted pre (fst (calls pre w0))))))) /\
  (forall now w,
     isRateLimited now w = (true, snd (isRateLimited now w)) ->
     timestamps (snd (isRateLimited now w))
       = List.filter (fresh w now) (timestamps w)) /\
  timestamps (snd (calls times w0))
    `sublist_of` admitted times (fst (calls times w0)).
Proof.
  intros Hempty Hmax Hsorted.
  apply Sorted_StronglySorted in Hsorted; [|intros x y z; lia].
  destruct (calls_invariant w0 Hempty Hmax times Hsorted) as (_ & I4 & I5).
  repeat split; try assumption.
  - intros pre t post ->.
    apply StronglySorted_app in Hsorted as (Hle & Hs & _).
    destruct (calls_invariant w0 Hempty Hmax pre Hs) as (I3 & _ & _).
    assert (Hpre : Forall (fun u => u <= t) pre).
    { apply Forall_forall. intros u Hu. apply Hle; [exact Hu|]. left. }
    rewrite calls_app. cbn [fst].
    rewrite lookup_app_r by (rewrite calls_length; lia).
    rewrite calls_length, Nat.sub_diag.
    cbn [calls]. destruct (calls_params pre w0) as [HW HM].
    rewrite <- (I3 t Hpre), <- HM, <- (fresh_same_size _ _ HW).
    rewrite isRateLimited_unfold. cbn zeta.
    destruct (maxRequests _ <=? _);
      match goal with |- context [calls post ?x] => destruct (calls post x) end;
      reflexivity.
  - intros now w. rewrite isRateLimited_unfold. cbn zeta.
    destruct (maxRequests w <=? _); [reflexivity|discriminate].
Qed.

End RateLimiterFacts.

(** ** The email service *)

Section ServiceFacts.

Import EmailService.

Lemma frame_refl (s : Slot) (w : World) : frame s w w.
Proof. constructor; reflexivity || (intros; reflexivity). Qed.

Lemma frame_trans (s : Slot) (w1 w2 w3 : World) :
  frame s w1 w2 -> frame s w2 w3 -> frame s w1 w3.
Proof.
  intros [a1 b1 c1 d1 e1 f1 g1] [a2 b2 c2 d2 e2 f2 g2].
  constructor; try congruence.
  - intros s' Hs. rewrite (e2 s' Hs). apply e1, Hs.
  - intros s' Hs. rewrite (f2 s' Hs). apply f1, Hs.
Qed.

Lemma frame_providerSendEmail (s : Slot) (req : EmailRequest) (w : World) :
  frame s w (snd (providerSendEmail s req w)).
Proof.
  destruct s; constructor; try reflexivity;
    intros [] Hs; try congruence; reflexivity.
Qed.

Lemma frame_delay (s : Slot) (ms : Z) (w : World) :
  frame s w (snd (delay ms w)).
Proof. constructor; reflexivity || (intros; reflexivity). Qed.

Lemma frame_recordSuccess (s : Slot) (w : World) :
  frame s w (snd (recordSuccess s w)).
Proof.
  destruct s; constructor; try reflexivity;
    intros [] Hs; try congruence; reflexivity.
Qed.

Lemma frame_recordFailure (s : Slot) (w : World) :
  frame s w (snd (recordFailure s w)).
Proof.
  destruct s; constructor; try reflexivity;
    intros [] Hs; try congruence; reflexivity.
Qed.

Lemma frame_canExecute (s : Slot) (w : World) :
  frame s w (snd (canExecute s w)).
Proof.
  unfold canExecute.
  destruct (CircuitBreaker.canExecute (clock w) (breaker s (service w)))
    as [r cb].
  destruct s; constructor; try reflexivity;
    intros [] Hs; try congruence; reflexivity.
Qed.

Lemma frame_attemptLoop (s : Slot) (name : string) (req : EmailRequest)
    (n : nat) :
  forall (i a : Z) (e : string) (w : World),
  frame s w (snd (attemptLoop n s name req i a e w)).
Proof.
  induction n as [|n IH]; intros i a e w; [apply frame_refl|].
  cbn [attemptLoop]. unfold bind.
  pose proof (frame_providerSendEmail s req w) as F1.
  destruct (providerSendEmail s req w) as [[|message] w1]; cbn [snd] in F1.
  - pose proof (frame_recordSuccess s w1) as F2.
    destruct (recordSuccess s w1) as [[] w2]. cbn [snd] in *.
    unfold ret. cbn [snd]. eapply frame_trans; eassumption.
  - destruct (i <? maxRetries (service w1) - 1).
    + pose proof (frame_delay s (calculateExponentialBackoff (service w1) i) w1)
        as F2.
      destruct (delay _ w1) as [[] w2]. cbn [snd] in F2.
      eapply frame_trans; [exact F1|]. eapply frame_trans; [exact F2|].
      apply IH.
    + unfold ret. eapply frame_trans; [exact F1|]. apply IH.
Qed.

Lemma frame_attemptSend (s : Slot) (name : string) (req : EmailRequest)
    (w : World) :
  frame s w (snd (attemptSendWithCircuitBreaker s name req w)).
Proof.
  unfold attemptSendWithCircuitBreaker, bind.
  pose proof (frame_canExecute s w) as F1.
  destruct (canExecute s w) as [[|] w1]; cbn [snd negb] in *; [|exact F1].
  pose proof (frame_attemptLoop s name req
                (Z.to_nat (maxRetries (service w1))) 0 0 "" w1) as F2.
  destruct (attemptLoop _ s name req 0 0 "" w1) as [[st|[a e]] w2];
    cbn [snd] in *.
  - eapply frame_trans; eassumption.
  - pose proof (frame_recordFailure s w2) as F3.
    unfold bind. destruct (recordFailure s w2) as [[] w3]. cbn [snd] in *.
    eapply frame_trans; [exact F1|]. eapply frame_trans; eassumption.
Qed.


(** The shape of [sendEmail] past the two admission checks. *)
Lemma sendEmail_admitted (req : EmailRequest) (w : World) :
  Idempotency.isDuplicate (requestId req) (SentRequests w) = false ->
  fst (isRateLimited w) = false ->
  sendEmail req w =
    let w1 := snd (isRateLimited w) in
    let r1 := fst (attemptSendWithCircuitBreaker SendGrid "SendGrid" req w1) in
    let w2 := snd (attemptSendWithCircuitBreaker SendGrid "SendGrid" req w1) in
    if a_success r1
    then (withStamp r1 (clock w) (requestId req),
          snd (markAsSent (requestId req) w2))
    else
      let r2 := fst (attemptSendWithCircuitBreaker Mailgun "Mailgun" req w2) in
      let w3 := snd (attemptSendWithCircuitBreaker Mailgun "Mailgun" req w2) in
      if a_success r2
      then (withStamp r2 (clock w) (requestId req),
            snd (markAsSent (requestId req) w3))
      else ({| success := false;
               providerUsed := Some "Both providers failed or unavailable";
               attempts := a_attempts r1 + a_attempts r2;
               errorMessage :=
                 Some ("Primary: " +:+ interpolate (a_errorMessage r1)
                       +:+ ", Fallback: "
                       +:+ interpolate (a_errorMessage r2));
               timestamp := clock w;
               es_requestId := requestId req |}, w3).
Proof.
  intros Hdup Hlim.
  unfold sendEmail, bind, DateNow, EmailService.isDuplicate.
  rewrite Hdup.
  destruct (isRateLimited w) as [lim w1]. cbn [fst snd] in *. subst lim.
  destruct (attemptSendWithCircuitBreaker SendGrid "SendGrid" req w1)
    as [r1 w2].
  cbn [fst snd]. destruct (a_success r1); [reflexivity|].
  destruct (attemptSendWithCircuitBreaker Mailgun "Mailgun" req w2)
    as [r2 w3].
  cbn [fst snd]. destruct (a_success r2); reflexivity.
Qed.

Lemma markAsSent_clock (rid : string) (w : World) :
  clock (snd (markAsSent rid w)) = clock w.
Proof. reflexivity. Qed.

Lemma markAsSent_service (rid : string) (w : World) :
  service (snd (markAsSent rid w)) = service w.
Proof. reflexivity. Qed.

Lemma markAsSent_sent (rid : string) (w : World) :
  SentRequests (snd (markAsSent rid w))
    = Idempotency.markAsSent rid (SentRequests w).
Proof. reflexivity. Qed.

Lemma isRateLimited_sent (w : World) :
  SentRequests (snd (isRateLimited w)) = SentRequests w.
Proof.
  unfold isRateLimited.
  destruct (RateLimiter.isRateLimited (clock w) (rateLimitWindow w));
    reflexivity.
Qed.

(** C9.  A [sendEmail] that returns [success = false] leaves the set of
    sent request ids as it found it, so the id is a duplicate afterwards
    only if it was one before. *)
Theorem failed_send_keeps_idempotency_store (req : EmailRequest) (w : World) :
  success (fst (sendEmail req w)) = false ->
  SentRequests (snd (sendEmail req w)) = SentRequests w /\
  forall rid,
    Idempotency.isDuplicate rid (SentRequests (snd (sendEmail req w)))
      = Idempotency.isDuplicate rid (SentRequests w).
Proof.
  intros Hfail.
  assert (H : SentRequests (snd (sendEmail req w)) = SentRequests w);
    [|split; [exact H|intros rid; rewrite H; reflexivity]].
  destruct (Idempotency.isDuplicate (requestId req) (SentRequests w)) eqn:Hdup.
  { unfold sendEmail, bind, DateNow, EmailService.isDuplicate.
    rewrite Hdup. reflexivity. }
  destruct (fst (isRateLimited w)) eqn:Hlim.
  { pose proof (isRateLimited_sent w) as Hs.
    unfold sendEmail, bind, DateNow, EmailService.isDuplicate.
    rewrite Hdup. destruct (isRateLimited w) as [lim w1].
    cbn [fst snd] in *. subst lim. exact Hs. }
  rewrite (sendEmail_admitted req w Hdup Hlim) in *. cbn zeta in *.
  pose proof (frame_sent _ _ _
    (frame_attemptSend SendGrid "SendGrid" req (snd (isRateLimited w)))) as F1.
  destruct (attemptSendWithCircuitBreaker SendGrid "SendGrid" req
              (snd (isRateLimited w))) as [r1 w2].
  cbn [fst snd] in *.
  destruct (a_success r1) eqn:E1; cbn [fst snd] in *.
  { unfold withStamp in Hfail. cbn [success] in Hfail. congruence. }
  pose proof (frame_sent _ _ _
    (frame_attemptSend Mailgun "Mailgun" req w2)) as F2.
  destruct (attemptSendWithCircuitBreaker Mailgun "Mailgun" req w2)
    as [r2 w3].
  cbn [fst snd] in *.
  destruct (a_success r2) eqn:E2; cbn [fst snd] in *.
  { unfold withStamp in Hfail. cbn [success] in Hfail. congruence. }
  rewrite F2, F1. apply isRateLimited_sent.
Qed.

(** C10.  When the SendGrid breaker admits, [isAnyProviderAvailable]
    answers true and [getBestAvailableProvider] answers SendGrid without
    consulting the Mailgun breaker, which is left exactly as it was. *)
Theorem sendgrid_admits_mailgun_untouched (w : World) :
  fst (CircuitBreaker.canExecute (clock w) (sendGridCircuitBreaker (service w)))
    = true ->
  (fst (isAnyProviderAvailable w) = true /\
   mailgunCircuitBreaker (service (snd (isAnyProviderAvailable w)))
     = mailgunCircuitBreaker (service w)) /\
  (fst (getBestAvailableProvider w) = Some "SendGrid" /\
   mailgunCircuitBreaker (service (snd (getBestAvailableProvider w)))
     = mailgunCircuitBreaker (service w)).
Proof.
  intros Hsg.
  unfold isAnyProviderAvailable, getBestAvailableProvider, bind, canExecute.
  cbn [breaker].
  destruct (CircuitBreaker.canExecute (clock w)
              (sendGridCircuitBreaker (service w))) as [r cb].
  cbn [fst] in Hsg. subst r. repeat split.
Qed.



(** When the SendGrid breaker denies, the Mailgun breaker is consulted and
    decides the answer. *)
Lemma sendgrid_denies_mailgun_consulted (w : World) :
  fst (CircuitBreaker.canExecute (clock w) (sendGridCircuitBreaker (service w)))
    = false ->
  fst (isAnyProviderAvailable w)
    = fst (CircuitBreaker.canExecute (clock w)
             (mailgunCircuitBreaker (service w))) /\
  mailgunCircuitBreaker (service (snd (isAnyProviderAvailable w)))
    = snd (CircuitBreaker.canExecute (clock w)
             (mailgunCircuitBreaker (service w))).
Proof.
  intros Hsg.
  unfold isAnyProviderAvailable, bind, canExecute. cbn [breaker].
  destruct (CircuitBreaker.canExecute (clock w)
              (sendGridCircuitBreaker (service w))) as [r cb].
  cbn [fst] in Hsg. subst r. cbn [clock service set_service set_breaker
    breaker mailgunCircuitBreaker].
  destruct (CircuitBreaker.canExecute (clock w)
              (mailgunCircuitBreaker (service w))) as [r' cb'].
  split; reflexivity.
Qed.

(** A successful [sendEmail] leaves the request id in the set of sent
    requests. *)
Lemma successful_send_marks_request (req : EmailRequest) (w : World) :
  success (fst (sendEmail req w)) = true ->
  requestId req ∈ SentRequests (snd (sendEmail req w)).
Proof.
  intros Hok.
  destruct (Idempotency.isDuplicate (requestId req) (SentRequests w)) eqn:Hdup.
  { unfold sendEmail, bind, DateNow, EmailService.isDuplicate in Hok.
    rewrite Hdup in Hok. discriminate. }
  destruct (fst (isRateLimited w)) eqn:Hlim.
  { unfold sendEmail, bind, DateNow, EmailService.isDuplicate in Hok.
    rewrite Hdup in Hok. destruct (isRateLimited w) as [lim w1].
    cbn [fst] in Hlim. subst lim. discriminate. }
  rewrite (sendEmail_admitted req w Hdup Hlim) in *. cbn zeta in *.
  destruct (a_success _).
  { cbn [snd]. rewrite markAsSent_sent. unfold Idempotency.markAsSent.
    apply elem_of_union_l, elem_of_singleton. reflexivity. }
  destruct (a_success _).
  { cbn [snd]. rewrite markAsSent_sent. unfold Idempotency.markAsSent.
    apply elem_of_union_l, elem_of_singleton. reflexivity. }
  discriminate.
Qed.

(** *** How each step changes the world *)

Lemma providerSendEmail_fst (s : Slot) (req : EmailRequest) (w : World) :
  fst (providerSendEmail s req w)
    = result (replies (provider s (service w))
                (callCount (provider s (service w)))).
Proof. reflexivity. Qed.

Lemma providerSendEmail_provider (s : Slot) (req : EmailRequest) (w : World) :
  provider s (service (snd (providerSendEmail s req w)))
    = called (provider s (service w)).
Proof. destruct s; reflexivity. Qed.

Lemma providerSendEmail_breaker (s s' : Slot) (req : EmailRequest) (w : World) :
  breaker s' (service (snd (providerSendEmail s req w)))
    = breaker s' (service w).
Proof. destruct s, s'; reflexivity. Qed.

Lemma providerSendEmail_maxRetries (s : Slot) (req : EmailRequest) (w : World) :
  maxRetries (service (snd (providerSendEmail s req w)))
    = maxRetries (service w).
Proof. destruct s; reflexivity. Qed.

Lemma providerSendEmail_baseDelay (s : Slot) (req : EmailRequest) (w : World) :
  baseDelay (service (snd (providerSendEmail s req w)))
    = baseDelay (service w).
Proof. destruct s; reflexivity. Qed.

Lemma providerSendEmail_events (s : Slot) (req : EmailRequest) (w : World) :
  events (snd (providerSendEmail s req w)) = events w ++ [Called s].
Proof. reflexivity. Qed.

Lemma providerSendEmail_clock (s : Slot) (req : EmailRequest) (w : World) :
  clock (snd (providerSendEmail s req w))
    = clock w + latency (replies (provider s (service w))
                           (callCount (provider s (service w)))).
Proof. reflexivity. Qed.

Lemma providerSendEmail_sent (s : Slot) (req : EmailRequest) (w : World) :
  SentRequests (snd (providerSendEmail s req w)) = SentRequests w.
Proof. reflexivity. Qed.

Lemma delay_sent (ms : Z) (w : World) :
  SentRequests (snd (delay ms w)) = SentRequests w.
Proof. reflexivity. Qed.

Lemma recordSuccess_sent (s : Slot) (w : World) :
  SentRequests (snd (recordSuccess s w)) = SentRequests w.
Proof. reflexivity. Qed.

Lemma delay_service (ms : Z) (w : World) :
  service (snd (delay ms w)) = service w.
Proof. reflexivity. Qed.

Lemma delay_events (ms : Z) (w : World) :
  events (snd (delay ms w)) = events w ++ [Waited ms].
Proof. reflexivity. Qed.

Lemma delay_clock (ms : Z) (w : World) :
  clock (snd (delay ms w)) = clock w + ms.
Proof. reflexivity. Qed.

Lemma recordSuccess_events (s : Slot) (w : World) :
  events (snd (recordSuccess s w)) = events w.
Proof. reflexivity. Qed.

Lemma recordSuccess_clock (s : Slot) (w : World) :
  clock (snd (recordSuccess s w)) = clock w.
Proof. reflexivity. Qed.

Lemma recordSuccess_breaker (s : Slot) (w : World) :
  breaker s (service (snd (recordSuccess s w)))
    = CircuitBreaker.recordSuccess (breaker s (service w)).
Proof. destruct s; reflexivity. Qed.

Lemma recordFailure_events (s : Slot) (w : World) :
  events (snd (recordFailure s w)) = events w.
Proof. reflexivity. Qed.

Lemma recordFailure_breaker (s : Slot) (w : World) :
  breaker s (service (snd (recordFailure s w)))
    = CircuitBreaker.recordFailure (clock w) (breaker s (service w)).
Proof. destruct s; reflexivity. Qed.

Lemma canExecute_breaker (s : Slot) (w : World) :
  breaker s (service (snd (canExecute s w)))
    = snd (CircuitBreaker.canExecute (clock w) (breaker s (service w))).
Proof.
  unfold canExecute. destruct (CircuitBreaker.canExecute _ _).
  destruct s; reflexivity.
Qed.

Lemma canExecute_provider (s s' : Slot) (w : World) :
  provider s' (service (snd (canExecute s w))) = provider s' (service w).
Proof.
  unfold canExecute. destruct (CircuitBreaker.canExecute _ _).
  destruct s, s'; reflexivity.
Qed.

Lemma canExecute_events (s : Slot) (w : World) :
  events (snd (canExecute s w)) = events w.
Proof.
  unfold canExecute. destruct (CircuitBreaker.canExecute _ _). reflexivity.
Qed.

Lemma canExecute_sent (s : Slot) (w : World) :
  SentRequests (snd (canExecute s w)) = SentRequests w.
Proof.
  unfold canExecute. destruct (CircuitBreaker.canExecute _ _). reflexivity.
Qed.

Lemma canExecute_clock (s : Slot) (w : World) :
  clock (snd (canExecute s w)) = clock w.
Proof.
  unfold canExecute. destruct (CircuitBreaker.canExecute _ _). reflexivity.
Qed.

(** A denied [canExecute] changes nothing at all. *)
Lemma canExecute_denied (s : Slot) (w : World) :
  fst (canExecute s w) = false -> snd (canExecute s w) = w.
Proof.
  unfold canExecute, CircuitBreaker.canExecute.
  destruct (CircuitBreaker.state (breaker s (service w)));
    try discriminate.
  destruct (_ <=? _); [discriminate|]. intros _.
  destruct w as [[sg mg sgcb mgcb mr bd] sent rl c ev].
  destruct s; reflexivity.
Qed.

(** One turn of the retry loop. *)
Lemma attemptLoop_S (n : nat) (s : Slot) (name : string) (req : EmailRequest)
    (i a : Z) (e : string) (w : World) :
  attemptLoop (S n) s name req i a e w =
    match result (replies (provider s (service w))
                    (callCount (provider s (service w)))) with
    | Resolved =>
        (inl {| a_success := true; a_providerUsed := Some name;
                a_attempts := a + 1; a_errorMessage := None |},
         snd (recordSuccess s (snd (providerSendEmail s req w))))
    | Rejected message =>
        attemptLoop n s name req (i + 1) (a + 1) message
          (if i <? maxRetries (service w) - 1
           then snd (delay (baseDelay (service w) * 2 ^ i)
                       (snd (providerSendEmail s req w)))
           else snd (providerSendEmail s req w))
    end.
Proof.
  cbn [attemptLoop]. unfold bind.
  pose proof (providerSendEmail_fst s req w) as Hr.
  pose proof (providerSendEmail_maxRetries s req w) as Hm.
  pose proof (providerSendEmail_baseDelay s req w) as Hb.
  destruct (providerSendEmail s req w) as [r w1]. cbn [fst snd] in *.
  rewrite <- Hr, <- Hm, <- Hb. destruct r as [|message]; [reflexivity|].
  unfold calculateExponentialBackoff.
  destruct (i <? maxRetries (service w1) - 1); reflexivity.
Qed.


Lemma canExecute_maxRetries (s : Slot) (w : World) :
  maxRetries (service (snd (canExecute s w))) = maxRetries (service w).
Proof. apply (frame_maxRetries s), frame_canExecute. Qed.

Lemma canExecute_baseDelay (s : Slot) (w : World) :
  baseDelay (service (snd (canExecute s w))) = baseDelay (service w).
Proof. apply (frame_baseDelay s), frame_canExecute. Qed.

Create Rewrite HintDb world.

#[local] Hint Rewrite
  providerSendEmail_provider providerSendEmail_breaker
  providerSendEmail_maxRetries providerSendEmail_baseDelay
  providerSendEmail_events providerSendEmail_clock
  delay_service delay_events delay_clock
  recordSuccess_events recordSuccess_clock recordSuccess_breaker
  recordFailure_events recordFailure_breaker
  canExecute_provider canExecute_events canExecute_clock
  canExecute_maxRetries canExecute_baseDelay canExecute_breaker
  canExecute_sent providerSendEmail_sent delay_sent recordSuccess_sent : world.

(** [attemptSendWithCircuitBreaker] when the breaker denies the call. *)
Lemma attemptSend_denied (s : Slot) (name : string) (req : EmailRequest)
    (w : World) :
  fst (canExecute s w) = false ->
  attemptSendWithCircuitBreaker s name req w =
    ({| a_success := false; a_providerUsed := Some name; a_attempts := 0;
        a_errorMessage :=
          Some ("Circuit breaker is OPEN - " +:+ name
                +:+ " temporarily unavailable") |}, w).
Proof.
  intros Hno. pose proof (canExecute_denied s w Hno) as Hw.
  unfold attemptSendWithCircuitBreaker, bind.
  destruct (canExecute s w) as [ok w1]. cbn [fst snd] in *. subst ok w1.
  reflexivity.
Qed.

(** ... and when it admits the call. *)
Lemma attemptSend_admitted (s : Slot) (name : string) (req : EmailRequest)
    (w : World) :
  fst (canExecute s w) = true ->
  attemptSendWithCircuitBreaker s name req w =
    match attemptLoop (Z.to_nat (maxRetries (service w))) s name req 0 0 ""
            (snd (canExecute s w)) with
    | (inl status, w2) => (status, w2)
    | (inr (a, e), w2) =>
        ({| a_success := false; a_providerUsed := Some name; a_attempts := a;
            a_errorMessage := Some e |}, snd (recordFailure s w2))
    end.
Proof.
  intros Hok. pose proof (canExecute_maxRetries s w) as Hm.
  unfold attemptSendWithCircuitBreaker, bind.
  destruct (canExecute s w) as [ok w1]. cbn [fst snd] in *. subst ok.
  cbn [negb]. rewrite Hm.
  destruct (attemptLoop _ s name req 0 0 "" w1) as [[st|[a e]] w2];
    reflexivity.
Qed.

(** C6.  With [maxRetries = 3] and [baseDelay = 1000], an admitted provider
    attempt waits 1000 ms between attempts 1 and 2 and 2000 ms between
    attempts 2 and 3, never before the first attempt nor after the last, and
    a successful attempt ends the loop at once. *)
Theorem retry_delays_1000_then_2000
    (s : Slot) (name : string) (req : EmailRequest) (w : World) :
  maxRetries (service w) = 3 ->
  baseDelay (service w) = 1000 ->
  fst (canExecute s w) = true ->
  let p := provider s (service w) in
  let outcome k := result (replies p (k + callCount p)%nat) in
  let run := attemptSendWithCircuitBreaker s name req w in
  events (snd run) =
    events w ++
    match outcome 0%nat, outcome 1%nat, outcome 2%nat with
    | Resolved, _, _ => [Called s]
    | Rejected _, Resolved, _ => [Called s; Waited 1000; Called s]
    | Rejected _, Rejected _, _ =>
        [Called s; Waited 1000; Called s; Waited 2000; Called s]
    end /\
  a_attempts (fst run) =
    match outcome 0%nat, outcome 1%nat, outcome 2%nat with
    | Resolved, _, _ => 1
    | Rejected _, Resolved, _ => 2
    | Rejected _, Rejected _, _ => 3
    end /\
  a_success (fst run) =
    match outcome 0%nat, outcome 1%nat, outcome 2%nat with
    | Rejected _, Rejected _, Rejected _ => false
    | _, _, _ => true
    end.
Proof.
  intros Hmr Hbd Hok. cbn zeta. cbn [Nat.add].
  rewrite (attemptSend_admitted s name req w Hok), Hmr.
  change (Z.to_nat 3) with 3%nat.
  rewrite attemptLoop_S. autorewrite with world. rewrite Hmr, Hbd.
  destruct (result (replies (provider s (service w))
                      (callCount (provider s (service w))))) as [|m0].
  { cbn [fst snd]. autorewrite with world. repeat split; reflexivity. }
  change (0 <? 3 - 1) with true. cbn iota.
  rewrite attemptLoop_S. autorewrite with world. rewrite Hmr, Hbd.
  cbn [called replies callCount].
  destruct (result (replies (provider s (service w))
                      (S (callCount (provider s (service w)))))) as [|m1].
  { cbn [fst snd]. autorewrite with world. rewrite <- !app_assoc.
    repeat split; reflexivity. }
  change (0 + 1 <? 3 - 1) with true. cbn iota.
  rewrite attemptLoop_S. autorewrite with world. rewrite Hmr, Hbd.
  cbn [called replies callCount].
  destruct (result (replies (provider s (service w))
                      (S (S (callCount (provider s (service w))))))) as [|m2].
  { cbn [fst snd]. autorewrite with world. rewrite <- !app_assoc.
    repeat split; reflexivity. }
  change (0 + 1 + 1 <? 3 - 1) with false. cbn iota.
  cbn [attemptLoop ret fst snd]. autorewrite with world.
  rewrite <- !app_assoc. repeat split; reflexivity.
Qed.


Lemma isRateLimited_service (w : World) :
  service (snd (isRateLimited w)) = service w.
Proof.
  unfold isRateLimited.
  destruct (RateLimiter.isRateLimited (clock w) (rateLimitWindow w));
    reflexivity.
Qed.

(** When every reply is a rejection the loop runs to its end. *)
Lemma attemptLoop_rejected (s : Slot) (name : string) (req : EmailRequest)
    (n : nat) :
  forall (i a : Z) (e : string) (w : World),
  allRejected (replies (provider s (service w)))
    (callCount (provider s (service w))) n = true ->
  fst (attemptLoop n s name req i a e w) =
    inr (a + Z.of_nat n,
         lastMessage (replies (provider s (service w)))
           (callCount (provider s (service w))) n e).
Proof.
  induction n as [|n IH]; intros i a e w Hall.
  - cbn [attemptLoop ret fst lastMessage]. rewrite Z.add_0_r. reflexivity.
  - rewrite attemptLoop_S. cbn [allRejected lastMessage] in *.
    destruct (result (replies (provider s (service w))
                        (callCount (provider s (service w))))) as [|m];
      [discriminate|].
    replace (a + Z.of_nat (S n)) with (a + 1 + Z.of_nat n) by lia.
    destruct (i <? maxRetries (service w) - 1);
      rewrite IH; autorewrite with world; cbn [called replies callCount];
      try reflexivity; exact Hall.
Qed.

(** The status a failing provider is given. *)
Lemma attemptSend_fails (s : Slot) (name : string) (req : EmailRequest)
    (w : World) :
  providerFails s w = true ->
  fst (attemptSendWithCircuitBreaker s name req w) =
    {| a_success := false; a_providerUsed := Some name;
       a_attempts := failedAttempts s w;
       a_errorMessage := Some (failureReason s name w) |}.
Proof.
  unfold providerFails, failedAttempts, failureReason.
  destruct (fst (canExecute s w)) eqn:Hok; cbn [negb orb]; intros Hall.
  - rewrite (attemptSend_admitted s name req w Hok).
    pose proof (attemptLoop_rejected s name req
                  (Z.to_nat (maxRetries (service w))) 0 0 ""
                  (snd (canExecute s w))) as HL.
    rewrite canExecute_provider in HL. specialize (HL Hall).
    destruct (attemptLoop _ s name req 0 0 "" _) as [r w2].
    cbn [fst] in HL. subst r. reflexivity.
  - rewrite (attemptSend_denied s name req w Hok). reflexivity.
Qed.

(** C4, as the code has it.  A request whose id is already in the set of
    sent requests is answered at once with [success = false],
    [attempts = 0] and the message "Duplicate request - email already
    sent"; the world is returned unchanged, so no provider was called and no
    breaker moved. *)
Theorem duplicate_request_rejected (req : EmailRequest) (w : World) :
  requestId req ∈ SentRequests w ->
  sendEmail req w =
    ({| success := false;
        providerUsed := None;
        attempts := 0;
        errorMessage := Some "Duplicate request - email already sent";
        timestamp := clock w;
        es_requestId := requestId req |}, w).
Proof.
  intros Hin.
  unfold sendEmail, bind, DateNow, EmailService.isDuplicate,
    Idempotency.isDuplicate.
  rewrite bool_decide_eq_true_2 by exact Hin. reflexivity.
Qed.

(** C5, as the code has it.  When neither admission check stops the
    request and each provider in turn is denied by its breaker or rejects
    every attempt, the status has [success = false], the sum of the two
    providers' attempts, the message
    "Primary: <reason>, Fallback: <reason>" and
    [providerUsed = "Both providers failed or unavailable"]; when both
    breakers deny, [attempts] is 0. *)
Theorem both_providers_fail (req : EmailRequest) (w : World) :
  Idempotency.isDuplicate (requestId req) (SentRequests w) = false ->
  fst (isRateLimited w) = false ->
  let w1 := snd (isRateLimited w) in
  let w2 := snd (attemptSendWithCircuitBreaker SendGrid "SendGrid" req w1) in
  providerFails SendGrid w1 = true ->
  providerFails Mailgun w2 = true ->
  fst (sendEmail req w) =
    {| success := false;
       providerUsed := Some "Both providers failed or unavailable";
       attempts := failedAttempts SendGrid w1 + failedAttempts Mailgun w2;
       errorMessage :=
         Some ("Primary: " +:+ failureReason SendGrid "SendGrid" w1
               +:+ ", Fallback: " +:+ failureReason Mailgun "Mailgun" w2);
       timestamp := clock w;
       es_requestId := requestId req |} /\
  (fst (canExecute SendGrid w1) = false ->
   fst (canExecute Mailgun w2) = false ->
   attempts (fst (sendEmail req w)) = 0).
Proof.
  intros Hdup Hlim w1 w2 H1 H2.
  assert (E : fst (sendEmail req w) =
    {| success := false;
       providerUsed := Some "Both providers failed or unavailable";
       attempts := failedAttempts SendGrid w1 + failedAttempts Mailgun w2;
       errorMessage :=
         Some ("Primary: " +:+ failureReason SendGrid "SendGrid" w1
               +:+ ", Fallback: " +:+ failureReason Mailgun "Mailgun" w2);
       timestamp := clock w;
       es_requestId := requestId req |}).
  { rewrite (sendEmail_admitted req w Hdup Hlim). cbn zeta. fold w1. fold w2.
    rewrite (attemptSend_fails SendGrid "SendGrid" req w1 H1).
    cbn [a_success a_attempts a_errorMessage interpolate].
    rewrite (attemptSend_fails Mailgun "Mailgun" req w2 H2).
    reflexivity. }
  split; [exact E|].
  intros D1 D2. rewrite E. cbn [attempts]. unfold failedAttempts.
  rewrite D1, D2. reflexivity.
Qed.


(** An admitted attempt whose first reply is a rejection and whose second
    is an acceptance. *)
Lemma attemptSend_second_try (s : Slot) (name : string) (req : EmailRequest)
    (w : World) (m : string) :
  maxRetries (service w) = 3 ->
  fst (canExecute s w) = true ->
  result (replies (provider s (service w))
            (callCount (provider s (service w)))) = Rejected m ->
  result (replies (provider s (service w))
            (S (callCount (provider s (service w))))) = Resolved ->
  attemptSendWithCircuitBreaker s name req w =
    ({| a_success := true; a_providerUsed := Some name;
        a_attempts := 2; a_errorMessage := None |},
     snd (recordSuccess s
            (snd (providerSendEmail s req
               (snd (delay (baseDelay (service w) * 2 ^ 0)
                  (snd (providerSendEmail s req
                     (snd (canExecute s w)))))))))).
Proof.
  intros Hmr Hok H0 H1.
  rewrite (attemptSend_admitted s name req w Hok), Hmr.
  change (Z.to_nat 3) with 3%nat.
  rewrite attemptLoop_S. autorewrite with world. rewrite H0, Hmr.
  change (0 <? 3 - 1) with true. cbn iota.
  rewrite attemptLoop_S. autorewrite with world.
  cbn [called replies callCount]. rewrite H1.
  reflexivity.
Qed.

(** The run behind C8: the primary is exhausted, the fallback delivers on
    its second attempt. *)
Lemma sendEmail_fallback_second_try (req : EmailRequest) (w : World)
    (m : string) :
  Idempotency.isDuplicate (requestId req) (SentRequests w) = false ->
  fst (isRateLimited w) = false ->
  maxRetries (service w) = 3 ->
  fst (canExecute SendGrid (snd (isRateLimited w))) = true ->
  allRejected (replies (sendGridProvider (service w)))
    (callCount (sendGridProvider (service w))) 3 = true ->
  fst (canExecute Mailgun
         (snd (attemptSendWithCircuitBreaker SendGrid "SendGrid" req
                 (snd (isRateLimited w))))) = true ->
  result (replies (mailgunProvider (service w))
            (callCount (mailgunProvider (service w)))) = Rejected m ->
  result (replies (mailgunProvider (service w))
            (S (callCount (mailgunProvider (service w))))) = Resolved ->
  sendEmail req w =
    ({| success := true;
        providerUsed := Some "Mailgun";
        attempts := 2;
        errorMessage := None;
        timestamp := clock w;
        es_requestId := requestId req |},
     snd (markAsSent (requestId req)
            (snd (recordSuccess Mailgun
               (snd (providerSendEmail Mailgun req
                  (snd (delay (baseDelay (service w) * 2 ^ 0)
                     (snd (providerSendEmail Mailgun req
                        (snd (canExecute Mailgun
                           (snd (attemptSendWithCircuitBreaker SendGrid
                                   "SendGrid" req
                                   (snd (isRateLimited w)))))))))))))))).
Proof.
  intros Hdup Hlim Hmr Hsg Hall Hmgok Hm0 Hm1.
  rewrite (sendEmail_admitted req w Hdup Hlim). cbn zeta.
  pose proof (isRateLimited_service w) as Hsv1.
  pose proof (frame_attemptSend SendGrid "SendGrid" req
                (snd (isRateLimited w))) as F.
  set (w1 := snd (isRateLimited w)) in *. clearbody w1.
  assert (Hfail : providerFails SendGrid w1 = true).
  { unfold providerFails. rewrite Hsg. cbn [negb orb provider].
    rewrite Hsv1, Hmr. exact Hall. }
  rewrite (attemptSend_fails SendGrid "SendGrid" req w1 Hfail).
  cbn [a_success].
  set (w2 := snd (attemptSendWithCircuitBreaker SendGrid "SendGrid" req w1))
    in *.
  clearbody w2.
  assert (Hmg2 : provider Mailgun (service w2) = mailgunProvider (service w)).
  { rewrite (frame_provider _ _ _ F Mailgun) by discriminate.
    rewrite Hsv1. reflexivity. }
  assert (Hmr2 : maxRetries (service w2) = 3).
  { rewrite (frame_maxRetries _ _ _ F), Hsv1. exact Hmr. }
  assert (Hbd2 : baseDelay (service w2) = baseDelay (service w)).
  { rewrite (frame_baseDelay _ _ _ F), Hsv1. reflexivity. }
  rewrite <- Hmg2 in Hm0, Hm1.
  rewrite (attemptSend_second_try Mailgun "Mailgun" req w2 m
             Hmr2 Hmgok Hm0 Hm1).
  cbn [fst snd a_success]. rewrite Hbd2. reflexivity.
Qed.

(** C8.  When the primary provider is admitted and rejects all three
    attempts and the fallback is admitted, rejects its first attempt and
    accepts the second, [sendEmail] returns [success = true],
    [providerUsed = "Mailgun"] and [attempts = 2], the fallback's own count;
    the timestamp is the clock as read on entry although the clock has moved
    on since; the Mailgun breaker has received [recordSuccess]; and the
    request id is in the set of sent requests. *)
Theorem fallback_succeeds_on_second_attempt (req : EmailRequest) (w : World) :
  Idempotency.isDuplicate (requestId req) (SentRequests w) = false ->
  fst (isRateLimited w) = false ->
  maxRetries (service w) = 3 ->
  let w1 := snd (isRateLimited w) in
  let w2 := snd (attemptSendWithCircuitBreaker SendGrid "SendGrid" req w1) in
  let sg := sendGridProvider (service w) in
  let mg := mailgunProvider (service w) in
  fst (canExecute SendGrid w1) = true ->
  allRejected (replies sg) (callCount sg) 3 = true ->
  fst (canExecute Mailgun w2) = true ->
  (exists m, result (replies mg (callCount mg)) = Rejected m) ->
  result (replies mg (S (callCount mg))) = Resolved ->
  let w' := snd (sendEmail req w) in
  fst (sendEmail req w) =
    {| success := true;
       providerUsed := Some "Mailgun";
       attempts := 2;
       errorMessage := None;
       timestamp := clock w;
       es_requestId := requestId req |} /\
  clock w' =
    clock w2 + latency (replies mg (callCount mg))
    + baseDelay (service w) * 2 ^ 0
    + latency (replies mg (S (callCount mg))) /\
  mailgunCircuitBreaker (service w') =
    CircuitBreaker.recordSuccess
      (snd (CircuitBreaker.canExecute (clock w2)
              (mailgunCircuitBreaker (service w)))) /\
  SentRequests w' = {[requestId req]} ∪ SentRequests w /\
  Idempotency.isDuplicate (requestId req) (SentRequests w') = true.
Proof.
  cbv zeta. intros Hdup Hlim Hmr Hsg Hall Hmgok [m Hm0] Hm1.
  rewrite (sendEmail_fallback_second_try req w m
             Hdup Hlim Hmr Hsg Hall Hmgok Hm0 Hm1).
  pose proof (isRateLimited_service w) as Hsv1.
  pose proof (isRateLimited_sent w) as Hsent1.
  pose proof (frame_attemptSend SendGrid "SendGrid" req
                (snd (isRateLimited w))) as F.
  set (w1 := snd (isRateLimited w)) in *. clearbody w1.
  set (w2 := snd (attemptSendWithCircuitBreaker SendGrid "SendGrid" req w1))
    in *.
  clearbody w2.
  assert (Hmg2 : provider Mailgun (service w2) = mailgunProvider (service w)).
  { rewrite (frame_provider _ _ _ F Mailgun) by discriminate.
    rewrite Hsv1. reflexivity. }
  assert (Hcb2 : breaker Mailgun (service w2)
                 = mailgunCircuitBreaker (service w)).
  { rewrite (frame_breaker _ _ _ F Mailgun) by discriminate.
    rewrite Hsv1. reflexivity. }
  assert (Hsent2 : SentRequests w2 = SentRequests w).
  { rewrite (frame_sent _ _ _ F). exact Hsent1. }
  match goal with
  | |- context [fst (?a, ?b)] =>
      change (fst (a, b)) with a; change (snd (a, b)) with b
  end.
  rewrite markAsSent_clock, markAsSent_service, markAsSent_sent.
  set (w3 := snd (recordSuccess Mailgun _)).
  assert (Hc3 : clock w3 =
    clock w2 + latency (replies (mailgunProvider (service w))
                          (callCount (mailgunProvider (service w))))
    + baseDelay (service w) * 2 ^ 0
    + latency (replies (mailgunProvider (service w))
                 (S (callCount (mailgunProvider (service w)))))).
  { unfold w3. autorewrite with world. rewrite Hmg2.
    cbn [called replies callCount]. reflexivity. }
  assert (Hb3 : breaker Mailgun (service w3) =
    CircuitBreaker.recordSuccess
      (snd (CircuitBreaker.canExecute (clock w2)
              (mailgunCircuitBreaker (service w))))).
  { unfold w3. autorewrite with world. rewrite Hcb2. reflexivity. }
  assert (Hs3 : SentRequests w3 = SentRequests w).
  { unfold w3. autorewrite with world. exact Hsent2. }
  clearbody w3. rewrite Hs3.
  split; [reflexivity|]. split; [exact Hc3|]. split; [exact Hb3|].
  split; [reflexivity|].
  unfold Idempotency.isDuplicate, Idempotency.markAsSent.
  apply bool_decide_eq_true_2.
  apply elem_of_union_l, elem_of_singleton. reflexivity.
Qed.


(** *** Concrete runs *)

Lemma duplicate_request_rejected_witness :
  sendEmail sampleRequest worldAfterSend =
    ({| success := false;
        providerUsed := None;
        attempts := 0;
        errorMessage := Some "Duplicate request - email already sent";
        timestamp := clock worldAfterSend;
        es_requestId := requestId sampleRequest |}, worldAfterSend).
Proof.
  apply (duplicate_request_rejected sampleRequest worldAfterSend).
  apply (bool_decide_unpack _). vm_compute. exact I.
Defined.

(** The request was sent once, so its id is marked; the second call is
    rejected, but not with the message "duplicate request". *)
Lemma duplicate_message_differs :
  success (fst (sendEmail sampleRequest worldFallback)) = true /\
  requestId sampleRequest ∈ SentRequests worldAfterSend /\
  success (fst (sendEmail sampleRequest worldAfterSend)) = false /\
  errorMessage (fst (sendEmail sampleRequest worldAfterSend))
    <> Some "duplicate request".
Proof.
  split; [vm_compute; reflexivity|].
  split; [apply (bool_decide_unpack _); vm_compute; exact I|].
  split; [vm_compute; reflexivity|].
  vm_compute. discriminate.
Qed.

Lemma both_providers_fail_witness :
  fst (sendEmail sampleRequest worldBothFail) =
    {| success := false;
       providerUsed := Some "Both providers failed or unavailable";
       attempts := 3 + 3;
       errorMessage :=
         Some "Primary: SendGrid failed to send email, Fallback: Mailgun failed to send email";
       timestamp := 1000000;
       es_requestId := "req-1" |} /\
  (fst (canExecute SendGrid (snd (isRateLimited worldBothFail))) = false ->
   fst (canExecute Mailgun
          (snd (attemptSendWithCircuitBreaker SendGrid "SendGrid"
                  sampleRequest (snd (isRateLimited worldBothFail)))))
     = false ->
   attempts (fst (sendEmail sampleRequest worldBothFail)) = 0).
Proof.
  apply (both_providers_fail sampleRequest worldBothFail).
  - vm_compute; reflexivity.
  - vm_compute; reflexivity.
  - vm_compute; reflexivity.
  - vm_compute; reflexivity.
Defined.

(** Both breakers are OPEN and deny; the status is a failure with no
    attempts, but [providerUsed] is not "none". *)
Lemma both_open_provider_used_differs :
  fst (canExecute SendGrid worldBothOpen) = false /\
  fst (canExecute Mailgun worldBothOpen) = false /\
  success (fst (sendEmail sampleRequest worldBothOpen)) = false /\
  attempts (fst (sendEmail sampleRequest worldBothOpen)) = 0 /\
  providerUsed (fst (sendEmail sampleRequest worldBothOpen)) <> Some "none".
Proof.
  repeat split; try (vm_compute; reflexivity).
  vm_compute. discriminate.
Qed.


Lemma retry_delays_1000_then_2000_witness :
  events (snd (attemptSendWithCircuitBreaker SendGrid "SendGrid"
                 sampleRequest worldBothFail)) =
    events worldBothFail ++
    [Called SendGrid; Waited 1000; Called SendGrid; Waited 2000;
     Called SendGrid] /\
  a_attempts (fst (attemptSendWithCircuitBreaker SendGrid "SendGrid"
                     sampleRequest worldBothFail)) = 3 /\
  a_success (fst (attemptSendWithCircuitBreaker SendGrid "SendGrid"
                    sampleRequest worldBothFail)) = false.
Proof.
  apply (retry_delays_1000_then_2000 SendGrid "SendGrid" sampleRequest
           worldBothFail).
  - reflexivity.
  - reflexivity.
  - vm_compute; reflexivity.
Defined.

Lemma fallback_succeeds_on_second_attempt_witness :
  fst (sendEmail sampleRequest worldFallback) =
    {| success := true;
       providerUsed := Some "Mailgun";
       attempts := 2;
       errorMessage := None;
       timestamp := clock worldFallback;
       es_requestId := requestId sampleRequest |} /\
  clock (snd (sendEmail sampleRequest worldFallback)) =
    clock (snd (attemptSendWithCircuitBreaker SendGrid "SendGrid"
                  sampleRequest (snd (isRateLimited worldFallback))))
    + 5 + 1000 * 2 ^ 0 + 7 /\
  mailgunCircuitBreaker (service (snd (sendEmail sampleRequest worldFallback)))
    = CircuitBreaker.recordSuccess
        (snd (CircuitBreaker.canExecute
                (clock (snd (attemptSendWithCircuitBreaker SendGrid
                               "SendGrid" sampleRequest
                               (snd (isRateLimited worldFallback)))))
                (mailgunCircuitBreaker (service worldFallback)))) /\
  SentRequests (snd (sendEmail sampleRequest worldFallback))
    = {[requestId sampleRequest]} ∪ SentRequests worldFallback /\
  Idempotency.isDuplicate (requestId sampleRequest)
    (SentRequests (snd (sendEmail sampleRequest worldFallback))) = true.
Proof.
  apply (fallback_succeeds_on_second_attempt sampleRequest worldFallback).
  - vm_compute; reflexivity.
  - vm_compute; reflexivity.
  - reflexivity.
  - vm_compute; reflexivity.
  - vm_compute; reflexivity.
  - vm_compute; reflexivity.
  - exists "Mailgun failed to send email". reflexivity.
  - reflexivity.
Defined.

Lemma failed_send_keeps_idempotency_store_witness :
  SentRequests (snd (sendEmail sampleRequest worldBothFail))
    = SentRequests worldBothFail /\
  forall rid,
    Idempotency.isDuplicate rid
      (SentRequests (snd (sendEmail sampleRequest worldBothFail)))
      = Idempotency.isDuplicate rid (SentRequests worldBothFail).
Proof.
  apply (failed_send_keeps_idempotency_store sampleRequest worldBothFail).
  vm_compute; reflexivity.
Defined.

Lemma sendgrid_admits_mailgun_untouched_witness :
  (fst (isAnyProviderAvailable worldMailgunRecovering) = true /\
   mailgunCircuitBreaker
     (service (snd (isAnyProviderAvailable worldMailgunRecovering)))
     = mailgunCircuitBreaker (service worldMailgunRecovering)) /\
  (fst (getBestAvailableProvider worldMailgunRecovering) = Some "SendGrid" /\
   mailgunCircuitBreaker
     (service (snd (getBestAvailableProvider worldMailgunRecovering)))
     = mailgunCircuitBreaker (service worldMailgunRecovering)).
Proof.
  apply (sendgrid_admits_mailgun_untouched worldMailgunRecovering).
  reflexivity.
Defined.

(** In that world the Mailgun breaker is OPEN with its timeout passed: a
    [canExecute] on it would move it to HALF_OPEN, but neither query makes
    one. *)
Lemma recovering_mailgun_stays_open :
  CircuitBreaker.state
    (snd (CircuitBreaker.canExecute (clock worldMailgunRecovering)
            (mailgunCircuitBreaker (service worldMailgunRecovering))))
    = CircuitBreaker.HALF_OPEN /\
  CircuitBreaker.state
    (mailgunCircuitBreaker
       (service (snd (isAnyProviderAvailable worldMailgunRecovering))))
    = CircuitBreaker.OPEN /\
  CircuitBreaker.state
    (mailgunCircuitBreaker
       (service (snd (getBestAvailableProvider worldMailgunRecovering))))
    = CircuitBreaker.OPEN.
Proof. repeat split; vm_compute; reflexivity. Qed.

End ServiceFacts.

Section RateLimiterRuns.

Import RateLimiter.

Lemma rate_limiter_bounds_admitted_calls_witness :
  (forall a, countIn a (windowSize rateLimitWindow)
               (admitted burst (fst (calls burst rateLimitWindow)))
             <= maxRequests rateLimitWindow) /\
  (forall pre t post, burst = pre ++ t :: post ->
     fst (calls burst rateLimitWindow) !! length pre =
       Some (maxRequests rateLimitWindow <=?
               Z.of_nat (length (List.filter (fresh rateLimitWindow t)
                                   (admitted pre
                                      (fst (calls pre rateLimitWindow))))))) /\
  (forall now w,
     isRateLimited now w = (true, snd (isRateLimited now w)) ->
     timestamps (snd (isRateLimited now w))
       = List.filter (fresh w now) (timestamps w)) /\
  timestamps (snd (calls burst rateLimitWindow))
    `sublist_of` admitted burst (fst (calls burst rateLimitWindow)).
Proof.
  apply (rate_limiter_bounds_admitted_calls rateLimitWindow burst).
  - reflexivity.
  - simpl. lia.
  - unfold burst. repeat constructor; lia.
Defined.

(** The burst itself: ten calls admitted, the last two rejected. *)
Lemma burst_answers :
  fst (calls burst rateLimitWindow)
    = repeat false 10 ++ repeat true 2 /\
  timestamps (snd (calls burst rateLimitWindow))
    = [0; 10; 20; 30; 40; 50; 60; 70; 80; 90].
Proof. split; vm_compute; reflexivity. Qed.

End RateLimiterRuns.

(** * Further properties *)

(** ** The circuit breaker over arbitrary call sequences *)

Section BreakerSequences.

Import CircuitBreaker.

Lemma call_config (c : Call) (cb : CircuitBreaker.t) :
  config (call c cb) = config cb /\ providerName (call c cb) = providerName cb.
Proof.
  destruct cb as [s n l a cfg nm], c as [now| |now|];
    unfold call, canExecute, recordSuccess, recordFailure, reset;
    destruct s; simpl; breaker_cases; simpl; split; reflexivity.
Qed.

Lemma run_config (cs : list Call) :
  forall cb : CircuitBreaker.t,
  config (run cs cb) = config cb /\ providerName (run cs cb) = providerName cb.
Proof.
  unfold run. induction cs as [|c cs IH]; intros cb; [split; reflexivity|].
  cbn [fold_left]. destruct (IH (call c cb)) as [H1 H2].
  destruct (call_config c cb) as [H3 H4]. split; congruence.
Qed.

Lemma call_counted (c : Call) (cb : CircuitBreaker.t) :
  1 <= failureThreshold (config cb) -> counted cb -> counted (call c cb).
Proof.
  unfold counted.
  destruct cb as [s n l a cfg nm], c as [now| |now|];
    unfold call, canExecute, recordSuccess, recordFailure, reset;
    destruct s; simpl; intros Hth [H0 Hc]; breaker_cases; simpl;
    (split; [lia|]); intros E; try discriminate E;
    try (specialize (Hc eq_refl)); simpl in *; lia.
Qed.

(** X1.  Over any sequence of [canExecute], [recordSuccess],
    [recordFailure] and [reset] calls on a constructed breaker whose
    threshold is at least 1, the failure counter is never negative and,
    whenever the breaker is CLOSED, it is below the threshold. *)
Theorem closed_breaker_counts_below_threshold
    (name : string) (c : PartialConfig) (cs : list Call) :
  1 <= failureThreshold (config (CircuitBreaker.new name c)) ->
  0 <= failureCount (run cs (CircuitBreaker.new name c)) /\
  (state (run cs (CircuitBreaker.new name c)) = CLOSED ->
   failureCount (run cs (CircuitBreaker.new name c))
     < failureThreshold (config (CircuitBreaker.new name c))).
Proof.
  intros Hth.
  assert (H : forall cb, 1 <= failureThreshold (config cb) -> counted cb ->
                         counted (run cs cb)).
  { unfold run. induction cs as [|x cs IH]; intros cb H1 H2; [exact H2|].
    cbn [fold_left]. apply IH.
    - destruct (call_config x cb) as [-> _]. exact H1.
    - apply call_counted; assumption. }
  destruct (H (CircuitBreaker.new name c) Hth) as [H0 Hc].
  { split; simpl; [lia|]. intros _. simpl in Hth. lia. }
  split; [exact H0|]. intros E. specialize (Hc E).
  destruct (run_config cs (CircuitBreaker.new name c)) as [Hcfg _].
  rewrite Hcfg in Hc. exact Hc.
Qed.

Lemma closed_breaker_counts_below_threshold_witness :
  0 <= failureCount
         (run [RecordFailure 1000; RecordFailure 2000; RecordSuccess;
               RecordFailure 3000; CanExecute 3500]
            (CircuitBreaker.new "SendGrid" (mkPartial None None None))) /\
  (state
     (run [RecordFailure 1000; RecordFailure 2000; RecordSuccess;
           RecordFailure 3000; CanExecute 3500]
        (CircuitBreaker.new "SendGrid" (mkPartial None None None))) = CLOSED ->
   failureCount
     (run [RecordFailure 1000; RecordFailure 2000; RecordSuccess;
           RecordFailure 3000; CanExecute 3500]
        (CircuitBreaker.new "SendGrid" (mkPartial None None None)))
     < failureThreshold
         (config (CircuitBreaker.new "SendGrid" (mkPartial None None None)))).
Proof.
  apply (closed_breaker_counts_below_threshold "SendGrid"
           (mkPartial None None None)
           [RecordFailure 1000; RecordFailure 2000; RecordSuccess;
            RecordFailure 3000; CanExecute 3500]).
  simpl. lia.
Defined.

(** X2.  Whatever calls a constructed breaker has received, [reset] puts it
    back exactly in the state the constructor made: CLOSED, counters and
    times zero, configuration and name kept. *)
Theorem reset_restores_constructed_breaker
    (name : string) (c : PartialConfig) (cs : list Call) :
  reset (run cs (CircuitBreaker.new name c)) = CircuitBreaker.new name c.
Proof.
  destruct (run_config cs (CircuitBreaker.new name c)) as [H1 H2].
  unfold reset. rewrite H1, H2. reflexivity.
Qed.

(** X3.  The moves the methods can make between states.  No call takes a
    CLOSED breaker to HALF_OPEN; only [reset] takes an OPEN breaker to
    CLOSED; HALF_OPEN is entered or kept only by [canExecute]; a CLOSED
    breaker is opened only by [recordFailure]; a HALF_OPEN breaker is closed
    only by [recordSuccess] or [reset]. *)
Theorem breaker_state_moves (c : Call) (cb : CircuitBreaker.t) :
  (state cb = CLOSED -> state (call c cb) <> HALF_OPEN) /\
  (state cb = OPEN -> state (call c cb) = CLOSED -> c = Reset) /\
  (state (call c cb) = HALF_OPEN -> exists now, c = CanExecute now) /\
  (state cb = CLOSED -> state (call c cb) = OPEN ->
   exists now, c = RecordFailure now) /\
  (state cb = HALF_OPEN -> state (call c cb) = CLOSED ->
   c = RecordSuccess \/ c = Reset).
Proof.
  destruct cb as [s n l a cfg nm], c as [now| |now|];
    unfold call, canExecute, recordSuccess, recordFailure, reset;
    destruct s; simpl; breaker_cases; simpl;
    repeat split; intros; try discriminate; try congruence; eauto.
Qed.

(** X4.  Stale failures decay: when every failure comes more than
    [monitoringWindow] after the one before it, a CLOSED breaker whose
    threshold is at least 2 stays CLOSED with a count of 1, however many
    failures there are and whatever the count was before. *)
Theorem spaced_failures_never_open
    (cb : CircuitBreaker.t) (times : list Z) :
  state cb = CLOSED ->
  2 <= failureThreshold (config cb) ->
  times <> [] ->
  farApart (monitoringWindow (config cb)) (lastFailureTime cb) times ->
  state (recordFailures times cb) = CLOSED /\
  failureCount (recordFailures times cb) = 1.
Proof.
  unfold recordFailures. revert cb.
  induction times as [|now rest IH]; intros cb Hst Hth Hne Hfar;
    [congruence|].
  destruct Hfar as [Hgap Hfar].
  pose proof (recordFailure_closed now cb Hst) as E; simpl in E.
  destruct (Z.ltb_spec (monitoringWindow (config cb))
              (now - lastFailureTime cb)) as [_|Hbad]; [|lia].
  destruct (Z.leb_spec (failureThreshold (config cb)) (0 + 1)) as [Hbad|_];
    [lia|].
  cbn [fold_left]. rewrite E. clear E.
  destruct rest as [|u rest]; [split; reflexivity|].
  apply IH; simpl; try assumption; try reflexivity; congruence.
Qed.

Lemma spaced_failures_never_open_witness :
  state (recordFailures [100000; 200000; 300000; 400000] defaultBreaker)
    = CLOSED /\
  failureCount (recordFailures [100000; 200000; 300000; 400000] defaultBreaker)
    = 1.
Proof.
  apply (spaced_failures_never_open defaultBreaker
           [100000; 200000; 300000; 400000]).
  - reflexivity.
  - simpl. lia.
  - discriminate.
  - simpl. lia.
Defined.

(** X5.  [canExecute] answers true exactly when the breaker is not OPEN
    after the call, and it changes nothing but the state. *)
Theorem canExecute_admits_iff_not_open (now : Z) (cb : CircuitBreaker.t) :
  (fst (canExecute now cb) = true <-> state (snd (canExecute now cb)) <> OPEN)
  /\
  failureCount (snd (canExecute now cb)) = failureCount cb /\
  lastFailureTime (snd (canExecute now cb)) = lastFailureTime cb /\
  nextAttemptTime (snd (canExecute now cb)) = nextAttemptTime cb /\
  config (snd (canExecute now cb)) = config cb /\
  providerName (snd (canExecute now cb)) = providerName cb.
Proof.
  destruct cb as [s n l a cfg nm]. unfold canExecute.
  destruct s; simpl; breaker_cases; simpl;
    repeat split; intros; try discriminate; try congruence.
Qed.

(** X6.  Once [canExecute] has admitted a call, every further [canExecute],
    at whatever time, admits too and leaves the breaker as it is: only a
    recorded outcome or a reset ends the admission. *)
Theorem canExecute_admission_is_stable
    (now later : Z) (cb : CircuitBreaker.t) :
  fst (canExecute now cb) = true ->
  canExecute later (snd (canExecute now cb))
    = (true, snd (canExecute now cb)).
Proof.
  destruct cb as [s n l a cfg nm]. unfold canExecute.
  destruct s; simpl; breaker_cases; simpl; intros; try discriminate;
    reflexivity.
Qed.

Lemma canExecute_admission_is_stable_witness :
  canExecute 10 (snd (canExecute 33000 openBreaker))
    = (true, snd (canExecute 33000 openBreaker)).
Proof.
  apply (canExecute_admission_is_stable 33000 10 openBreaker). reflexivity.
Defined.

End BreakerSequences.

(** ** The rate limiter: status, bounds and recovery *)

Section RateLimiterMore.

Import RateLimiter.

Lemma filter_fresh_idem (w : RateLimitWindow) (now : Z) (l : list Z) :
  List.filter (fresh w now) (List.filter (fresh w now) l)
    = List.filter (fresh w now) l.
Proof. apply filter_fresh_later. lia. Qed.

(** X7.  The status and the enforcement agree: at any instant
    [isRateLimited] rejects exactly when the status shows [currentRequests]
    at or above [maxRequests]; and, for a positive window, the status taken
    right after the call shows one request more if the call was admitted
    and the same number if it was rejected. *)
Theorem status_agrees_with_enforcement (now : Z) (w : RateLimitWindow) :
  0 < windowSize w ->
  fst (isRateLimited now w)
    = (rl_maxRequests (getRateLimitStatus now w)
       <=? currentRequests (getRateLimitStatus now w)) /\
  currentRequests (getRateLimitStatus now (snd (isRateLimited now w)))
    = currentRequests (getRateLimitStatus now w)
      + (if fst (isRateLimited now w) then 0 else 1).
Proof.
  intros HW. rewrite isRateLimited_unfold. cbn zeta.
  unfold getRateLimitStatus. cbn [currentRequests rl_maxRequests].
  destruct (maxRequests w <=? _); cbn [fst snd timestamps set_timestamps].
  - split; [reflexivity|].
    rewrite (fresh_same_size (set_timestamps _ w) w eq_refl).
    rewrite filter_fresh_idem. lia.
  - split; [reflexivity|].
    rewrite (fresh_same_size (set_timestamps _ w) w eq_refl).
    rewrite List.filter_app, filter_fresh_idem, length_app.
    cbn [List.filter]. unfold fresh at 2.
    destruct (Z.ltb_spec (now - now) (windowSize w)); [|lia].
    cbn [length]. lia.
Qed.

Lemma status_agrees_with_enforcement_witness :
  fst (isRateLimited 500 rateLimitWindow)
    = (rl_maxRequests (getRateLimitStatus 500 rateLimitWindow)
       <=? currentRequests (getRateLimitStatus 500 rateLimitWindow)) /\
  currentRequests
    (getRateLimitStatus 500 (snd (isRateLimited 500 rateLimitWindow)))
    = currentRequests (getRateLimitStatus 500 rateLimitWindow)
      + (if fst (isRateLimited 500 rateLimitWindow) then 0 else 1).
Proof.
  apply (status_agrees_with_enforcement 500 rateLimitWindow). simpl. lia.
Defined.

Lemma filter_length_bound (f : Z -> bool) (l : list Z) :
  (length (List.filter f l) <= length l)%nat.
Proof.
  induction l as [|x l IH]; [reflexivity|].
  simpl. destruct (f x); simpl; lia.
Qed.

Lemma isRateLimited_length (now : Z) (w : RateLimitWindow) :
  (length (timestamps (snd (isRateLimited now w)))
   <= length (timestamps w)
      + (if fst (isRateLimited now w) then 0 else 1))%nat /\
  (fst (isRateLimited now w) = false ->
   Z.of_nat (length (timestamps (snd (isRateLimited now w))))
     <= maxRequests w).
Proof.
  rewrite isRateLimited_unfold. cbn zeta.
  pose proof (filter_length_bound (fresh w now) (timestamps w)) as Hle.
  destruct (Z.leb_spec (maxRequests w)
              (Z.of_nat (length (List.filter (fresh w now) (timestamps w)))));
    cbn [fst snd timestamps set_timestamps]; split; try discriminate.
  - lia.
  - rewrite length_app. cbn [length]. lia.
  - intros _. rewrite length_app. cbn [length]. lia.
Qed.

(** X8.  The stored list never outgrows the cap: from a window that holds
    at most [maxRequests] timestamps, any run of calls, at whatever times,
    leaves at most [maxRequests] stored, so the status never reports more
    than [maxRequests] current requests. *)
Theorem stored_timestamps_never_exceed_cap
    (w : RateLimitWindow) (times : list Z) (now : Z) :
  Z.of_nat (length (timestamps w)) <= maxRequests w ->
  Z.of_nat (length (timestamps (snd (calls times w)))) <= maxRequests w /\
  currentRequests (getRateLimitStatus now (snd (calls times w)))
    <= rl_maxRequests (getRateLimitStatus now (snd (calls times w))).
Proof.
  intros Hcap.
  assert (H : Z.of_nat (length (timestamps (snd (calls times w))))
              <= maxRequests w).
  { revert w Hcap. induction times as [|t rest IH]; intros w Hcap;
      [exact Hcap|].
    cbn [calls].
    destruct (isRateLimited_length t w) as [H1 H2].
    destruct (isRateLimited_params t w) as [_ HM].
    destruct (isRateLimited t w) as [r w1]. cbn [fst snd] in *.
    specialize (IH w1). destruct (calls rest w1) as [rs w2].
    cbn [snd] in *. rewrite <- HM. apply IH. rewrite HM.
    destruct r; [lia|]. apply H2. reflexivity. }
  split; [exact H|].
  unfold getRateLimitStatus. cbn [currentRequests rl_maxRequests].
  destruct (calls_params times w) as [_ HM]. rewrite HM.
  pose proof (filter_length_bound
                (fresh (snd (calls times w)) now)
                (timestamps (snd (calls times w)))). lia.
Qed.

Lemma stored_timestamps_never_exceed_cap_witness :
  Z.of_nat (length (timestamps (snd (calls burst rateLimitWindow))))
    <= maxRequests rateLimitWindow /\
  currentRequests (getRateLimitStatus 120 (snd (calls burst rateLimitWindow)))
    <= rl_maxRequests
         (getRateLimitStatus 120 (snd (calls burst rateLimitWindow))).
Proof.
  apply (stored_timestamps_never_exceed_cap rateLimitWindow burst 120).
  simpl. lia.
Defined.

(** X9.  From the empty window the first [maxRequests] calls are all
    admitted, whatever their times. *)
Theorem first_requests_are_admitted (w : RateLimitWindow) (times : list Z) :
  timestamps w = [] ->
  Z.of_nat (length times) <= maxRequests w ->
  fst (calls times w) = repeat false (length times).
Proof.
  intros Hempty Hlen.
  assert (H : forall w', Z.of_nat (length (timestamps w'))
                         + Z.of_nat (length times) <= maxRequests w' ->
                         fst (calls times w') = repeat false (length times)).
  { clear. induction times as [|t rest IH]; intros w Hroom; [reflexivity|].
    cbn [calls]. rewrite length_cons in Hroom.
    destruct (isRateLimited_length t w) as [H1 _].
    destruct (isRateLimited_params t w) as [_ HM].
    assert (Hadm : fst (isRateLimited t w) = false).
    { rewrite isRateLimited_unfold. cbn zeta.
      pose proof (filter_length_bound (fresh w t) (timestamps w)).
      destruct (Z.leb_spec (maxRequests w)
                  (Z.of_nat (length (List.filter (fresh w t) (timestamps w)))));
        [lia|reflexivity]. }
    destruct (isRateLimited t w) as [r w1]. cbn [fst snd] in *. subst r.
    specialize (IH w1). destruct (calls rest w1) as [rs w2].
    cbn [fst] in *. rewrite IH; [reflexivity|]. rewrite HM. lia. }
  apply H. rewrite Hempty. simpl. lia.
Qed.

Lemma first_requests_are_admitted_witness :
  fst (calls [5; 3; 3; 900000; 0; 1; 2; 7; 7; 7] rateLimitWindow)
    = repeat false (length [5; 3; 3; 900000; 0; 1; 2; 7; 7; 7]).
Proof.
  apply (first_requests_are_admitted rateLimitWindow
           [5; 3; 3; 900000; 0; 1; 2; 7; 7; 7]).
  - reflexivity.
  - simpl. lia.
Defined.

(** X10.  Once every stored timestamp is [windowSize] or more in the past,
    the next call is admitted (for a cap of at least 1) and the window holds
    that call alone. *)
Theorem idle_window_readmits (now : Z) (w : RateLimitWindow) :
  1 <= maxRequests w ->
  (forall t, In t (timestamps w) -> windowSize w <= now - t) ->
  isRateLimited now w = (false, set_timestamps [now] w).
Proof.
  intros Hmax Hold. rewrite isRateLimited_unfold. cbn zeta.
  assert (E : List.filter (fresh w now) (timestamps w) = []).
  { induction (timestamps w) as [|x l IH]; [reflexivity|].
    cbn [List.filter]. unfold fresh at 1.
    destruct (Z.ltb_spec (now - x) (windowSize w)) as [Hbad|_].
    - specialize (Hold x (or_introl eq_refl)). lia.
    - apply IH. intros t Ht. apply Hold. right. exact Ht. }
  rewrite E. cbn [length app].
  destruct (Z.leb_spec (maxRequests w) (Z.of_nat 0)); [simpl in *; lia|].
  reflexivity.
Qed.

Lemma idle_window_readmits_witness :
  isRateLimited 60090 (snd (calls burst rateLimitWindow))
    = (false, set_timestamps [60090] (snd (calls burst rateLimitWindow))).
Proof.
  apply (idle_window_readmits 60090 (snd (calls burst rateLimitWindow))).
  - vm_compute. discriminate.
  - intros t Ht. vm_compute in Ht.
    repeat (destruct Ht as [Ht|Ht]; [subst t; vm_compute; discriminate|]).
    destruct Ht.
Defined.

(** X11.  A rejected call leaves no trace that a later call could see: the
    later call answers, and leaves the window, exactly as if the rejected
    call had not been made. *)
Theorem rejected_call_leaves_no_trace (now later : Z) (w : RateLimitWindow) :
  fst (isRateLimited now w) = true ->
  now <= later ->
  isRateLimited later (snd (isRateLimited now w)) = isRateLimited later w.
Proof.
  intros Hrej Hle. rewrite (isRateLimited_unfold now w) in *. cbn zeta in *.
  destruct (maxRequests w <=? _); [|discriminate]. cbn [snd].
  rewrite !isRateLimited_unfold. cbn zeta.
  cbn [timestamps maxRequests set_timestamps].
  rewrite (fresh_same_size (set_timestamps _ w) w eq_refl).
  rewrite filter_fresh_later by exact Hle.
  destruct (maxRequests w <=? _); reflexivity.
Qed.

Lemma rejected_call_leaves_no_trace_witness :
  isRateLimited 60005
    (snd (isRateLimited 200 (snd (calls burst rateLimitWindow))))
    = isRateLimited 60005 (snd (calls burst rateLimitWindow)).
Proof.
  apply (rejected_call_leaves_no_trace 200 60005
           (snd (calls burst rateLimitWindow))).
  - reflexivity.
  - lia.
Defined.

End RateLimiterMore.

(** ** The idempotency check *)

Section IdempotencyFacts.

Import Idempotency.

(** X12.  After [markAsSent r'] an id is a duplicate exactly when it is
    [r'] or was a duplicate before; marking is never undone and marking
    twice is the same as marking once. *)
Theorem markAsSent_then_isDuplicate (r r' : string) (s : gset string) :
  isDuplicate r (markAsSent r' s) = bool_decide (r = r') || isDuplicate r s
  /\ markAsSent r' (markAsSent r' s) = markAsSent r' s.
Proof.
  unfold isDuplicate, markAsSent. split.
  - apply eq_true_iff_eq. rewrite orb_true_iff.
    rewrite !bool_decide_eq_true, elem_of_union, elem_of_singleton.
    reflexivity.
  - rewrite (assoc_L (∪)), (idemp_L (∪)). reflexivity.
Qed.

End IdempotencyFacts.

(** ** The email service: traces, outcomes and breakers *)

Section ServiceTraces.

Import EmailService.

Create Rewrite HintDb steps.

#[local] Hint Rewrite
  providerSendEmail_provider providerSendEmail_breaker
  providerSendEmail_maxRetries providerSendEmail_baseDelay
  providerSendEmail_events providerSendEmail_clock
  delay_service delay_events delay_clock
  recordSuccess_events recordSuccess_clock recordSuccess_breaker
  recordFailure_events recordFailure_breaker
  canExecute_provider canExecute_events canExecute_clock
  canExecute_maxRetries canExecute_baseDelay canExecute_breaker
  canExecute_sent providerSendEmail_sent delay_sent recordSuccess_sent
  : steps.

Lemma during_app (w w' : World) (l : list Event) :
  events w' = events w ++ l -> during w w' = l.
Proof. unfold during. intros ->. apply drop_app_length. Qed.

Lemma during_same (w w' : World) :
  events w' = events w -> during w w' = [].
Proof. intros H. apply during_app. rewrite H, app_nil_r. reflexivity. Qed.

Lemma providerCalls_app (s : Slot) (l1 l2 : list Event) :
  providerCalls s (l1 ++ l2)
    = (providerCalls s l1 + providerCalls s l2)%nat.
Proof.
  induction l1 as [|[p|ms] l1 IH]; [reflexivity| |];
    cbn [providerCalls app]; rewrite IH; lia.
Qed.

Lemma waits_app (l1 l2 : list Event) :
  waits (l1 ++ l2) = waits l1 ++ waits l2.
Proof.
  induction l1 as [|[p|ms] l1 IH]; [reflexivity| |];
    cbn [waits app]; rewrite IH; reflexivity.
Qed.

Lemma onlySlot_other (s s' : Slot) (l : list Event) :
  s' <> s -> onlySlot s l -> providerCalls s' l = 0%nat.
Proof.
  intros Hne. induction 1 as [|[p|ms] l Hx _ IH]; [reflexivity| |];
    cbn [providerCalls]; [|exact IH].
  subst p. destruct (decide (s = s')); [congruence|]. exact IH.
Qed.

(** What one run of the retry loop adds to the trace and does to the
    breaker. *)
Lemma attemptLoop_trace (s : Slot) (name : string) (req : EmailRequest)
    (n : nat) :
  forall (i a : Z) (e : string) (w : World),
  events (snd (attemptLoop n s name req i a e w))
    = events w ++ during w (snd (attemptLoop n s name req i a e w)) /\
  onlySlot s (during w (snd (attemptLoop n s name req i a e w))) /\
  Z.of_nat (providerCalls s
              (during w (snd (attemptLoop n s name req i a e w))))
    = loopAttempts (fst (attemptLoop n s name req i a e w)) - a /\
  loopAttempts (fst (attemptLoop n s name req i a e w)) <= a + Z.of_nat n /\
  match fst (attemptLoop n s name req i a e w) with
  | inl status =>
      a_success status = true /\
      a_providerUsed status = Some name /\
      a_errorMessage status = None /\
      a < a_attempts status /\
      breaker s (service (snd (attemptLoop n s name req i a e w)))
        = CircuitBreaker.recordSuccess (breaker s (service w))
  | inr _ =>
      breaker s (service (snd (attemptLoop n s name req i a e w)))
        = breaker s (service w)
  end.
Proof.
  induction n as [|n IH]; intros i a e w.
  - cbn [attemptLoop ret fst snd loopAttempts].
    rewrite (during_same w w eq_refl), app_nil_r.
    repeat split; try constructor; simpl; lia.
  - rewrite attemptLoop_S.
    destruct (result (replies (provider s (service w))
                        (callCount (provider s (service w))))) as [|m].
    + cbn [fst snd loopAttempts a_attempts a_success a_providerUsed
           a_errorMessage].
      assert (E : events (snd (recordSuccess s
                                 (snd (providerSendEmail s req w))))
                  = events w ++ [Called s]) by reflexivity.
      rewrite (during_app _ _ _ E), E.
      repeat split; try reflexivity.
      * repeat constructor.
      * cbn [providerCalls]. destruct (decide (s = s)); [|congruence].
        simpl. lia.
      * lia.
      * lia.
      * autorewrite with steps. reflexivity.
    + set (w2 := if i <? maxRetries (service w) - 1
                 then snd (delay (baseDelay (service w) * 2 ^ i)
                             (snd (providerSendEmail s req w)))
                 else snd (providerSendEmail s req w)).
      assert (E : exists pre,
                 events w2 = events w ++ Called s :: pre /\
                 onlySlot s pre /\ providerCalls s pre = 0%nat /\
                 breaker s (service w2) = breaker s (service w)).
      { unfold w2. destruct (i <? maxRetries (service w) - 1).
        - exists [Waited (baseDelay (service w) * 2 ^ i)].
          autorewrite with steps. rewrite <- app_assoc.
          repeat split; try reflexivity. repeat constructor.
        - exists []. autorewrite with steps.
          repeat split; try reflexivity. constructor. }
      destruct E as (pre & E1 & E2 & E3 & E4).
      destruct (IH (i + 1) (a + 1) m w2) as (H1 & H2 & H3 & H4 & H5).
      clearbody w2.
      set (out := attemptLoop n s name req (i + 1) (a + 1) m w2) in *.
      assert (E : events (snd out)
                  = events w ++ (Called s :: pre) ++ during w2 (snd out)).
      { rewrite H1, E1, <- app_assoc. reflexivity. }
      rewrite (during_app _ _ _ E), E.
      split; [reflexivity|]. split.
      { apply Forall_app. split; [|exact H2].
        constructor; [reflexivity|exact E2]. }
      split.
      { rewrite providerCalls_app. cbn [providerCalls].
        destruct (decide (s = s)); [|congruence]. rewrite E3. lia. }
      split; [lia|].
      destruct (fst out) as [st|[a' e']].
      * destruct H5 as (K1 & K2 & K3 & K0 & K4).
        repeat split; try assumption; [lia|]. rewrite K4, E4. reflexivity.
      * rewrite H5. exact E4.
Qed.

Lemma during_from_same_events (w w1 w' : World) :
  events w1 = events w -> during w1 w' = during w w'.
Proof. unfold during. intros ->. reflexivity. Qed.

(** What one guarded provider attempt adds to the trace, returns and does
    to its breaker. *)
Lemma attemptSend_trace (s : Slot) (name : string) (req : EmailRequest)
    (w : World) :
  events (snd (attemptSendWithCircuitBreaker s name req w))
    = events w ++ during w (snd (attemptSendWithCircuitBreaker s name req w))
  /\
  onlySlot s (during w (snd (attemptSendWithCircuitBreaker s name req w))) /\
  Z.of_nat (providerCalls s
              (during w (snd (attemptSendWithCircuitBreaker s name req w))))
    = a_attempts (fst (attemptSendWithCircuitBreaker s name req w)) /\
  a_attempts (fst (attemptSendWithCircuitBreaker s name req w))
    <= Z.of_nat (Z.to_nat (maxRetries (service w))) /\
  a_providerUsed (fst (attemptSendWithCircuitBreaker s name req w))
    = Some name /\
  (a_success (fst (attemptSendWithCircuitBreaker s name req w)) = true ->
   a_errorMessage (fst (attemptSendWithCircuitBreaker s name req w)) = None /\
   1 <= a_attempts (fst (attemptSendWithCircuitBreaker s name req w)) /\
   fst (canExecute s w) = true /\
   breaker s (service (snd (attemptSendWithCircuitBreaker s name req w)))
     = CircuitBreaker.recordSuccess
         (snd (CircuitBreaker.canExecute (clock w) (breaker s (service w)))))
  /\
  (a_success (fst (attemptSendWithCircuitBreaker s name req w)) = false ->
   exists msg,
     a_errorMessage (fst (attemptSendWithCircuitBreaker s name req w))
       = Some msg).
Proof.
  destruct (fst (canExecute s w)) eqn:Hok.
  - rewrite (attemptSend_admitted s name req w Hok).
    pose proof (attemptLoop_trace s name req
                  (Z.to_nat (maxRetries (service w))) 0 0 ""
                  (snd (canExecute s w))) as (H1 & H2 & H3 & H4 & H5).
    rewrite (during_from_same_events w _ _ (canExecute_events s w)) in *.
    rewrite canExecute_events, canExecute_breaker in *.
    destruct (attemptLoop _ s name req 0 0 "" _) as [[st|[a e]] w2];
      cbn [fst snd loopAttempts] in *.
    + destruct H5 as (K1 & K2 & K3 & K0 & K4).
      repeat split; try assumption; try lia.
      intros Hbad. congruence.
    + assert (E : events (snd (recordFailure s w2))
                  = events w ++ during w w2) by exact H1.
      rewrite (during_app _ _ _ E), E.
      cbn [a_attempts a_providerUsed a_success a_errorMessage].
      repeat split; try assumption; try lia; try discriminate.
      intros _. eexists. reflexivity.
  - rewrite (attemptSend_denied s name req w Hok). cbn [fst snd].
    rewrite (during_same w w eq_refl), app_nil_r.
    cbn [a_attempts a_providerUsed a_success a_errorMessage].
    repeat split; try constructor; try discriminate; try lia.
    intros _. eexists. reflexivity.
Qed.

Lemma sendEmail_duplicate (req : EmailRequest) (w : World) :
  Idempotency.isDuplicate (requestId req) (SentRequests w) = true ->
  sendEmail req w = (duplicateStatus req w, w).
Proof.
  intros Hdup. unfold sendEmail, bind, DateNow, EmailService.isDuplicate.
  rewrite Hdup. reflexivity.
Qed.

Lemma sendEmail_limited (req : EmailRequest) (w : World) :
  Idempotency.isDuplicate (requestId req) (SentRequests w) = false ->
  fst (isRateLimited w) = true ->
  sendEmail req w = (rateLimitedStatus req w, snd (isRateLimited w)).
Proof.
  intros Hdup Hlim. unfold sendEmail, bind, DateNow, EmailService.isDuplicate.
  rewrite Hdup. destruct (isRateLimited w) as [lim w1].
  cbn [fst snd] in *. subst lim. reflexivity.
Qed.

(** The five ways out of [sendEmail]. *)
Lemma sendEmail_cases (req : EmailRequest) (w : World) :
  (Idempotency.isDuplicate (requestId req) (SentRequests w) = true /\
   sendEmail req w = (duplicateStatus req w, w)) \/
  (Idempotency.isDuplicate (requestId req) (SentRequests w) = false /\
   fst (isRateLimited w) = true /\
   sendEmail req w = (rateLimitedStatus req w, snd (isRateLimited w))) \/
  (Idempotency.isDuplicate (requestId req) (SentRequests w) = false /\
   fst (isRateLimited w) = false /\
   a_success (fst (primaryRun req w)) = true /\
   sendEmail req w =
     (withStamp (fst (primaryRun req w)) (clock w) (requestId req),
      snd (markAsSent (requestId req) (snd (primaryRun req w))))) \/
  (Idempotency.isDuplicate (requestId req) (SentRequests w) = false /\
   fst (isRateLimited w) = false /\
   a_success (fst (primaryRun req w)) = false /\
   a_success (fst (fallbackRun req w)) = true /\
   sendEmail req w =
     (withStamp (fst (fallbackRun req w)) (clock w) (requestId req),
      snd (markAsSent (requestId req) (snd (fallbackRun req w))))) \/
  (Idempotency.isDuplicate (requestId req) (SentRequests w) = false /\
   fst (isRateLimited w) = false /\
   a_success (fst (primaryRun req w)) = false /\
   a_success (fst (fallbackRun req w)) = false /\
   sendEmail req w =
     ({| success := false;
         providerUsed := Some "Both providers failed or unavailable";
         attempts := a_attempts (fst (primaryRun req w))
                     + a_attempts (fst (fallbackRun req w));
         errorMessage :=
           Some ("Primary: "
                 +:+ interpolate (a_errorMessage (fst (primaryRun req w)))
                 +:+ ", Fallback: "
                 +:+ interpolate (a_errorMessage (fst (fallbackRun req w))));
         timestamp := clock w;
         es_requestId := requestId req |},
      snd (fallbackRun req w))).
Proof.
  destruct (Idempotency.isDuplicate (requestId req) (SentRequests w)) eqn:Hdup.
  { left. split; [reflexivity|]. apply sendEmail_duplicate, Hdup. }
  right. destruct (fst (isRateLimited w)) eqn:Hlim.
  { left. repeat split. apply sendEmail_limited; assumption. }
  right. rewrite (sendEmail_admitted req w Hdup Hlim). cbn zeta.
  fold (primaryRun req w). fold (fallbackRun req w).
  destruct (a_success (fst (primaryRun req w))) eqn:E1.
  { left. repeat split. }
  right. destruct (a_success (fst (fallbackRun req w))) eqn:E2.
  { left. repeat split. }
  right. repeat split.
Qed.

(** The worlds along the way. *)
Lemma primaryRun_frame (req : EmailRequest) (w : World) :
  frame SendGrid (snd (isRateLimited w)) (snd (primaryRun req w)).
Proof. apply frame_attemptSend. Qed.


Lemma isRateLimited_events (w : World) :
  events (snd (isRateLimited w)) = events w.
Proof.
  unfold isRateLimited.
  destruct (RateLimiter.isRateLimited (clock w) (rateLimitWindow w));
    reflexivity.
Qed.

Lemma isRateLimited_clock (w : World) :
  clock (snd (isRateLimited w)) = clock w.
Proof.
  unfold isRateLimited.
  destruct (RateLimiter.isRateLimited (clock w) (rateLimitWindow w));
    reflexivity.
Qed.

Lemma primaryRun_maxRetries (req : EmailRequest) (w : World) :
  maxRetries (service (snd (primaryRun req w))) = maxRetries (service w).
Proof.
  rewrite (frame_maxRetries _ _ _ (primaryRun_frame req w)).
  rewrite isRateLimited_service. reflexivity.
Qed.

(** X13.  Every status [sendEmail] returns echoes the request id, carries
    the clock as read on entry, and has a non-negative attempt count.  A
    success names SendGrid or Mailgun as the provider used, has no error
    message and between 1 and [maxRetries] attempts; every failure carries
    an error message. *)
Theorem sendEmail_status_is_well_formed (req : EmailRequest) (w : World) :
  es_requestId (fst (sendEmail req w)) = requestId req /\
  timestamp (fst (sendEmail req w)) = clock w /\
  0 <= attempts (fst (sendEmail req w)) /\
  (success (fst (sendEmail req w)) = true ->
   errorMessage (fst (sendEmail req w)) = None /\
   (providerUsed (fst (sendEmail req w)) = Some "SendGrid" \/
    providerUsed (fst (sendEmail req w)) = Some "Mailgun") /\
   1 <= attempts (fst (sendEmail req w))
     <= Z.of_nat (Z.to_nat (maxRetries (service w)))) /\
  (success (fst (sendEmail req w)) = false ->
   exists msg, errorMessage (fst (sendEmail req w)) = Some msg).
Proof.
  pose proof (attemptSend_trace SendGrid "SendGrid" req
                (snd (isRateLimited w))) as (_ & _ & P3 & P4 & P5 & P6 & P7).
  pose proof (attemptSend_trace Mailgun "Mailgun" req
                (snd (primaryRun req w))) as (_ & _ & F3 & F4 & F5 & F6 & F7).
  fold (primaryRun req w) in *. fold (fallbackRun req w) in *.
  rewrite primaryRun_maxRetries in F4. rewrite isRateLimited_service in P4.
  destruct (sendEmail_cases req w)
    as [(_ & ->)|[(_ & _ & ->)|[(_ & _ & E1 & ->)|[(_ & _ & E1 & E2 & ->)
       |(_ & _ & E1 & E2 & ->)]]]];
    cbn [fst success providerUsed attempts errorMessage timestamp
         es_requestId withStamp duplicateStatus rateLimitedStatus].
  - repeat split; try lia; try discriminate. intros _. eexists. reflexivity.
  - repeat split; try lia; try discriminate. intros _. eexists. reflexivity.
  - destruct (P6 E1) as (K1 & K2 & _).
    repeat split; try lia; try congruence. left. exact P5.
  - destruct (F6 E2) as (K1 & K2 & _).
    repeat split; try lia; try congruence. right. exact F5.
  - repeat split; try lia; try discriminate. intros _. eexists. reflexivity.
Qed.

Lemma markAsSent_events (rid : string) (w : World) :
  events (snd (markAsSent rid w)) = events w.
Proof. reflexivity. Qed.

(** X14.  The provider calls of one [sendEmail].  The trace only grows; each
    provider is called at most [maxRetries] times; a failed send reports as
    [attempts] the number of calls made to both providers together; a send
    delivered by SendGrid made no call to Mailgun; and a successful send
    reports only the calls made to the provider that delivered. *)
Theorem sendEmail_provider_calls (req : EmailRequest) (w : World) :
  events (snd (sendEmail req w))
    = events w ++ during w (snd (sendEmail req w)) /\
  (providerCalls SendGrid (during w (snd (sendEmail req w)))
   <= Z.to_nat (maxRetries (service w)))%nat /\
  (providerCalls Mailgun (during w (snd (sendEmail req w)))
   <= Z.to_nat (maxRetries (service w)))%nat /\
  (success (fst (sendEmail req w)) = false ->
   attempts (fst (sendEmail req w))
     = Z.of_nat (providerCalls SendGrid (during w (snd (sendEmail req w)))
                 + providerCalls Mailgun (during w (snd (sendEmail req w)))))
  /\
  (providerUsed (fst (sendEmail req w)) = Some "SendGrid" ->
   providerCalls Mailgun (during w (snd (sendEmail req w))) = 0%nat /\
   attempts (fst (sendEmail req w))
     = Z.of_nat (providerCalls SendGrid (during w (snd (sendEmail req w)))))
  /\
  (providerUsed (fst (sendEmail req w)) = Some "Mailgun" ->
   attempts (fst (sendEmail req w))
     = Z.of_nat (providerCalls Mailgun (during w (snd (sendEmail req w))))).
Proof.
  pose proof (attemptSend_trace SendGrid "SendGrid" req
                (snd (isRateLimited w))) as (P1 & P2 & P3 & P4 & P5 & _).
  pose proof (attemptSend_trace Mailgun "Mailgun" req
                (snd (primaryRun req w))) as (F1 & F2 & F3 & F4 & F5 & _).
  fold (primaryRun req w) in *. fold (fallbackRun req w) in *.
  rewrite primaryRun_maxRetries in F4. rewrite isRateLimited_service in P4.
  rewrite isRateLimited_events in P1.
  set (d1 := during (snd (isRateLimited w)) (snd (primaryRun req w))) in *.
  set (d2 := during (snd (primaryRun req w)) (snd (fallbackRun req w))) in *.
  assert (F1' : events (snd (fallbackRun req w)) = events w ++ (d1 ++ d2)).
  { rewrite F1, P1, <- app_assoc. reflexivity. }
  pose proof (onlySlot_other SendGrid Mailgun d1 ltac:(discriminate) P2) as Z1.
  pose proof (onlySlot_other Mailgun SendGrid d2 ltac:(discriminate) F2) as Z2.
  destruct (sendEmail_cases req w)
    as [(_ & ->)|[(_ & _ & ->)|[(_ & _ & E1 & ->)|[(_ & _ & E1 & E2 & ->)
       |(_ & _ & E1 & E2 & ->)]]]];
    cbn [fst snd success providerUsed attempts withStamp duplicateStatus
         rateLimitedStatus].
  - rewrite (during_same w w eq_refl), app_nil_r. cbn [providerCalls].
    repeat split; try lia; discriminate.
  - rewrite (during_same w _ (isRateLimited_events w)), app_nil_r,
      isRateLimited_events.
    cbn [providerCalls]. repeat split; try lia; discriminate.
  - rewrite markAsSent_events.
    rewrite (during_app w (snd (markAsSent _ _)) d1 P1), P1, Z1.
    repeat split; try lia; try congruence.
  - rewrite markAsSent_events.
    rewrite (during_app w (snd (markAsSent _ _)) (d1 ++ d2) F1'), F1'.
    rewrite !providerCalls_app, Z1, Z2.
    repeat split; try lia; try congruence.
  - rewrite (during_app w _ (d1 ++ d2) F1'), F1'.
    rewrite !providerCalls_app, Z1, Z2.
    repeat split; try lia; discriminate.
Qed.

Lemma recordSuccess_closes_admitted (now : Z) (cb : CircuitBreaker.t) :
  fst (CircuitBreaker.canExecute now cb) = true ->
  CircuitBreaker.state
    (CircuitBreaker.recordSuccess (snd (CircuitBreaker.canExecute now cb)))
    = CircuitBreaker.CLOSED /\
  CircuitBreaker.failureCount
    (CircuitBreaker.recordSuccess (snd (CircuitBreaker.canExecute now cb)))
    = 0.
Proof.
  destruct cb as [s n l a cfg nm].
  unfold CircuitBreaker.canExecute, CircuitBreaker.recordSuccess.
  destruct s; simpl; breaker_cases; simpl; intros; try discriminate;
    split; reflexivity.
Qed.

Lemma canExecute_answer (s : Slot) (w : World) :
  fst (canExecute s w)
    = fst (CircuitBreaker.canExecute (clock w) (breaker s (service w))).
Proof.
  unfold canExecute. destruct (CircuitBreaker.canExecute _ _); reflexivity.
Qed.

Lemma attemptLoopAmong_alone (env : nat -> list Other)
    (Henv : forall k, env k = []) (n : nat) (s : Slot) (name : string)
    (req : EmailRequest) (i a : Z) (k : nat) (e : string) (w : World) :
  attemptLoopAmong env n s name req i a k e w = attemptLoop n s name req i a e w.
Proof.
  revert i a k e w. induction n as [|n IH]; intros i a k e w; [reflexivity|].
  cbn [attemptLoopAmong attemptLoop]. unfold bind, meanwhile.
  destruct (providerSendEmail s req w) as [[|msg] w1];
    rewrite Henv; cbn [fold_left]; [reflexivity|].
  destruct (i <? maxRetries (service w1) - 1).
  - destruct (delay _ w1) as [[] w2]. rewrite Henv. cbn [fold_left].
    apply IH.
  - cbn [ret]. apply IH.
Qed.

Lemma attemptSendAmong_alone (env : nat -> list Other)
    (Henv : forall k, env k = []) (s : Slot) (name : string)
    (req : EmailRequest) (w : World) :
  attemptSendAmong env s name req w
    = attemptSendWithCircuitBreaker s name req w.
Proof.
  unfold attemptSendAmong, attemptSendWithCircuitBreaker, bind.
  destruct (canExecute s w) as [[|] w1]; cbn [negb]; [|reflexivity].
  rewrite (attemptLoopAmong_alone env Henv). reflexivity.
Qed.

Lemma attemptLoopAmong_delivery (env : nat -> list Other) (n : nat)
    (s : Slot) (name : string) (req : EmailRequest) (i a : Z) (k : nat)
    (e : string) (w : World) :
  match fst (attemptLoopAmong env n s name req i a k e w) with
  | inl st =>
      CircuitBreaker.failureCount
        (breaker s
           (service (snd (attemptLoopAmong env n s name req i a k e w)))) = 0
      /\
      CircuitBreaker.state
        (breaker s
           (service (snd (attemptLoopAmong env n s name req i a k e w))))
        <> CircuitBreaker.HALF_OPEN
  | inr _ => True
  end.
Proof.
  revert i a k e w. induction n as [|n IH]; intros i a k e w; [exact I|].
  cbn [attemptLoopAmong]. unfold bind.
  destruct (providerSendEmail s req w) as [[|msg] w1].
  - destruct (meanwhile (env k) w1) as [[] w2].
    change (recordSuccess s w2) with (tt, snd (recordSuccess s w2)).
    cbn [fst snd ret]. rewrite recordSuccess_breaker.
    destruct (breaker s (service w2)) as [st c l nt cfg nm].
    unfold CircuitBreaker.recordSuccess. destruct st; cbn;
      split; try reflexivity; discriminate.
  - destruct (meanwhile (env k) w1) as [[] w2]. cbn [fst snd].
    destruct (i <? maxRetries (service w2) - 1).
    + destruct (delay _ w2) as [[] w3].
      destruct (meanwhile (env (S k)) w3) as [[] w4]. apply IH.
    + cbn [ret]. apply IH.
Qed.

(** X15.  A delivery and the breaker, with other requests running during
    the awaits of [attemptSendWithCircuitBreaker].  When the method returns
    success, the breaker of its provider has a failure count of 0 and is not
    HALF_OPEN, whatever the other requests did; if no other request ran
    during the awaits, the breaker is CLOSED. *)
Theorem delivery_resets_the_breaker (env : nat -> list Other) (s : Slot)
    (name : string) (req : EmailRequest) (w : World) :
  a_success (fst (attemptSendAmong env s name req w)) = true ->
  CircuitBreaker.failureCount
    (breaker s (service (snd (attemptSendAmong env s name req w)))) = 0 /\
  CircuitBreaker.state
    (breaker s (service (snd (attemptSendAmong env s name req w))))
    <> CircuitBreaker.HALF_OPEN /\
  ((forall k, env k = []) ->
   CircuitBreaker.state
     (breaker s (service (snd (attemptSendAmong env s name req w))))
     = CircuitBreaker.CLOSED).
Proof.
  intros Hs.
  assert (G : CircuitBreaker.failureCount
                (breaker s (service (snd (attemptSendAmong env s name req w))))
              = 0 /\
              CircuitBreaker.state
                (breaker s (service (snd (attemptSendAmong env s name req w))))
              <> CircuitBreaker.HALF_OPEN).
  { revert Hs. unfold attemptSendAmong, bind.
    destruct (canExecute s w) as [[|] w1]; cbn [negb];
      [|cbn; discriminate].
    pose proof (attemptLoopAmong_delivery env
                  (Z.to_nat (maxRetries (service w1))) s name req 0 0 0 ""
                  w1) as HL.
    destruct (attemptLoopAmong env _ s name req 0 0 0 "" w1)
      as [[st|[a e]] w2]; cbn [fst snd ret] in *.
    - intros _. exact HL.
    - cbn. discriminate. }
  destruct G as [G1 G2]. split; [exact G1|]. split; [exact G2|].
  intros Henv. revert Hs. rewrite (attemptSendAmong_alone env Henv).
  intros Hs.
  pose proof (attemptSend_trace s name req w) as (_ & _ & _ & _ & _ & P6 & _).
  destruct (P6 Hs) as (_ & _ & Hok & Hb).
  rewrite canExecute_answer in Hok.
  rewrite Hb. apply (recordSuccess_closes_admitted _ _ Hok).
Qed.

Lemma delivery_resets_the_breaker_witness :
  CircuitBreaker.failureCount
    (breaker Mailgun
       (service
          (snd (attemptSendAmong alone Mailgun "Mailgun" sampleRequest
                  worldFallback)))) = 0 /\
  CircuitBreaker.state
    (breaker Mailgun
       (service
          (snd (attemptSendAmong alone Mailgun "Mailgun" sampleRequest
                  worldFallback))))
    <> CircuitBreaker.HALF_OPEN /\
  ((forall k, alone k = []) ->
   CircuitBreaker.state
     (breaker Mailgun
        (service
           (snd (attemptSendAmong alone Mailgun "Mailgun" sampleRequest
                   worldFallback))))
     = CircuitBreaker.CLOSED).
Proof.
  apply (delivery_resets_the_breaker alone Mailgun "Mailgun" sampleRequest
           worldFallback).
  vm_compute; reflexivity.
Defined.

(** A delivery can return with the breaker of its provider OPEN: five other
    sends record their failures while the delivering call is pending, the
    breaker opens, and [recordSuccess] only clears the count. *)
Lemma delivery_can_leave_breaker_open :
  a_success
    (fst (attemptSendAmong fiveFailuresMeanwhile Mailgun "Mailgun"
            sampleRequest worldFallback)) = true /\
  CircuitBreaker.state
    (breaker Mailgun
       (service
          (snd (attemptSendAmong fiveFailuresMeanwhile Mailgun "Mailgun"
                  sampleRequest worldFallback))))
    = CircuitBreaker.OPEN.
Proof. split; vm_compute; reflexivity. Qed.

Lemma recordFailure_clock (s : Slot) (w : World) :
  clock (snd (recordFailure s w)) = clock w.
Proof. reflexivity. Qed.

Lemma recordFailure_count (now : Z) (cb : CircuitBreaker.t) :
  CircuitBreaker.failureCount (CircuitBreaker.recordFailure now cb)
    = (if monitoringWindow (CircuitBreaker.config cb)
          <? now - CircuitBreaker.lastFailureTime cb
       then 0 else CircuitBreaker.failureCount cb) + 1.
Proof.
  destruct cb as [s n l a cfg nm]. unfold CircuitBreaker.recordFailure.
  destruct s; simpl; breaker_cases; simpl; try reflexivity; lia.
Qed.

Lemma canExecute_keeps_count (now : Z) (cb : CircuitBreaker.t) :
  CircuitBreaker.failureCount (snd (CircuitBreaker.canExecute now cb))
    = CircuitBreaker.failureCount cb.
Proof.
  destruct cb as [s n l a cfg nm]. unfold CircuitBreaker.canExecute.
  destruct s; simpl; breaker_cases; reflexivity.
Qed.

(** X16.  A provider attempt that is admitted and has every one of its
    retries rejected records exactly one failure on the breaker, at the
    time the loop ends: the failure counter goes up by at most one for the
    whole loop, not by one per rejected call. *)
Theorem exhausted_attempt_records_one_failure
    (s : Slot) (name : string) (req : EmailRequest) (w : World) :
  fst (canExecute s w) = true ->
  allRejected (replies (provider s (service w)))
    (callCount (provider s (service w)))
    (Z.to_nat (maxRetries (service w))) = true ->
  breaker s (service (snd (attemptSendWithCircuitBreaker s name req w)))
    = CircuitBreaker.recordFailure
        (clock (snd (attemptSendWithCircuitBreaker s name req w)))
        (snd (CircuitBreaker.canExecute (clock w) (breaker s (service w))))
  /\
  (0 <= CircuitBreaker.failureCount (breaker s (service w)) ->
   CircuitBreaker.failureCount
     (breaker s (service (snd (attemptSendWithCircuitBreaker s name req w))))
     <= CircuitBreaker.failureCount (breaker s (service w)) + 1).
Proof.
  intros Hok Hall.
  assert (E : breaker s
                (service (snd (attemptSendWithCircuitBreaker s name req w)))
              = CircuitBreaker.recordFailure
                  (clock (snd (attemptSendWithCircuitBreaker s name req w)))
                  (snd (CircuitBreaker.canExecute (clock w)
                          (breaker s (service w))))).
  { rewrite (attemptSend_admitted s name req w Hok).
    pose proof (attemptLoop_rejected s name req
                  (Z.to_nat (maxRetries (service w))) 0 0 ""
                  (snd (canExecute s w))) as HL.
    rewrite canExecute_provider in HL. specialize (HL Hall).
    pose proof (attemptLoop_trace s name req
                  (Z.to_nat (maxRetries (service w))) 0 0 ""
                  (snd (canExecute s w))) as (_ & _ & _ & _ & H5).
    destruct (attemptLoop _ s name req 0 0 "" _) as [r w2].
    cbn [fst snd] in *. subst r. cbn [snd].
    rewrite recordFailure_breaker, recordFailure_clock, H5,
      canExecute_breaker.
    reflexivity. }
  split; [exact E|]. intros Hnn. rewrite E, recordFailure_count.
  rewrite canExecute_keeps_count.
  destruct (_ <? _); lia.
Qed.

Lemma exhausted_attempt_records_one_failure_witness :
  breaker SendGrid
    (service (snd (attemptSendWithCircuitBreaker SendGrid "SendGrid"
                     sampleRequest worldBothFail)))
    = CircuitBreaker.recordFailure
        (clock (snd (attemptSendWithCircuitBreaker SendGrid "SendGrid"
                       sampleRequest worldBothFail)))
        (snd (CircuitBreaker.canExecute (clock worldBothFail)
                (breaker SendGrid (service worldBothFail))))
  /\
  (0 <= CircuitBreaker.failureCount (breaker SendGrid (service worldBothFail))
   ->
   CircuitBreaker.failureCount
     (breaker SendGrid
        (service (snd (attemptSendWithCircuitBreaker SendGrid "SendGrid"
                         sampleRequest worldBothFail))))
     <= CircuitBreaker.failureCount
          (breaker SendGrid (service worldBothFail)) + 1).
Proof.
  apply (exhausted_attempt_records_one_failure SendGrid "SendGrid"
           sampleRequest worldBothFail).
  - vm_compute; reflexivity.
  - vm_compute; reflexivity.
Defined.

Lemma backoffs_map (base : Z) (n : nat) :
  forall i : Z,
  backoffs base i n
    = map (fun k => base * 2 ^ (i + Z.of_nat k)) (seq 0 (n - 1)).
Proof.
  induction n as [|[|m] IH]; intros i; [reflexivity|reflexivity|].
  change (backoffs base i (S (S m)))
    with (base * 2 ^ i :: backoffs base (i + 1) (S m)).
  rewrite IH.
  replace (S (S m) - 1)%nat with (S m) by lia.
  replace (S m - 1)%nat with m by lia.
  cbn [seq map]. rewrite Z.add_0_r. f_equal.
  rewrite <- seq_shift, map_map. apply map_ext. intros k.
  do 2 f_equal. lia.
Qed.

(** The waits of a retry loop in which every call is rejected. *)
Lemma attemptLoop_waits (s : Slot) (name : string) (req : EmailRequest)
    (n : nat) :
  forall (i a : Z) (e : string) (w : World),
  allRejected (replies (provider s (service w)))
    (callCount (provider s (service w))) n = true ->
  maxRetries (service w) = i + Z.of_nat n ->
  waits (during w (snd (attemptLoop n s name req i a e w)))
    = backoffs (baseDelay (service w)) i n.
Proof.
  induction n as [|n IH]; intros i a e w Hall Hmr.
  - cbn [attemptLoop ret snd]. rewrite (during_same w w eq_refl).
    reflexivity.
  - rewrite attemptLoop_S. cbn [allRejected] in Hall.
    destruct (result (replies (provider s (service w))
                        (callCount (provider s (service w))))) as [|m];
      [discriminate|].
    destruct n as [|n'].
    + destruct (Z.ltb_spec i (maxRetries (service w) - 1)) as [Hbad|_];
        [simpl in Hmr; lia|].
      cbn [attemptLoop ret snd].
      rewrite (during_app w _ [Called s] (providerSendEmail_events s req w)).
      reflexivity.
    + destruct (Z.ltb_spec i (maxRetries (service w) - 1)) as [_|Hbad];
        [|rewrite Hmr in Hbad; lia].
      set (w2 := snd (delay (baseDelay (service w) * 2 ^ i)
                        (snd (providerSendEmail s req w)))).
      assert (E2 : events w2
                   = events w
                     ++ [Called s; Waited (baseDelay (service w) * 2 ^ i)]).
      { unfold w2. autorewrite with steps. rewrite <- app_assoc.
        reflexivity. }
      assert (Hp : provider s (service w2) = called (provider s (service w))).
      { unfold w2. autorewrite with steps. reflexivity. }
      assert (Hm2 : maxRetries (service w2) = maxRetries (service w)).
      { unfold w2. autorewrite with steps. reflexivity. }
      assert (Hb2 : baseDelay (service w2) = baseDelay (service w)).
      { unfold w2. autorewrite with steps. reflexivity. }
      clearbody w2.
      pose proof (IH (i + 1) (a + 1) m w2) as IH'.
      rewrite Hp, Hm2, Hb2 in IH'. cbn [called replies callCount] in IH'.
      specialize (IH' Hall ltac:(lia)).
      pose proof (attemptLoop_trace s name req (S n') (i + 1) (a + 1) m w2)
        as (H1 & _).
      set (out := attemptLoop (S n') s name req (i + 1) (a + 1) m w2) in *.
      assert (E : events (snd out)
                  = events w
                    ++ ([Called s; Waited (baseDelay (service w) * 2 ^ i)]
                        ++ during w2 (snd out))).
      { rewrite H1, E2, <- app_assoc. reflexivity. }
      rewrite (during_app _ _ _ E), waits_app, IH'. reflexivity.
Qed.

(** X17.  The backoff schedule for any [maxRetries]: an admitted attempt
    whose calls are all rejected waits [baseDelay * 2^k] after its k-th
    call (counting from 0) for every call but the last, and makes no other
    wait. *)
Theorem exhausted_attempt_backoff_schedule
    (s : Slot) (name : string) (req : EmailRequest) (w : World) :
  fst (canExecute s w) = true ->
  0 <= maxRetries (service w) ->
  allRejected (replies (provider s (service w)))
    (callCount (provider s (service w)))
    (Z.to_nat (maxRetries (service w))) = true ->
  waits (during w (snd (attemptSendWithCircuitBreaker s name req w)))
    = map (fun k => baseDelay (service w) * 2 ^ Z.of_nat k)
        (seq 0 (Z.to_nat (maxRetries (service w)) - 1)).
Proof.
  intros Hok Hnn Hall.
  rewrite (attemptSend_admitted s name req w Hok).
  pose proof (attemptLoop_rejected s name req
                (Z.to_nat (maxRetries (service w))) 0 0 ""
                (snd (canExecute s w))) as HL.
  pose proof (attemptLoop_waits s name req
                (Z.to_nat (maxRetries (service w))) 0 0 ""
                (snd (canExecute s w))) as HW.
  rewrite canExecute_provider in HL, HW.
  rewrite canExecute_maxRetries, canExecute_baseDelay in HW.
  specialize (HL Hall). specialize (HW Hall ltac:(lia)).
  rewrite (during_from_same_events w _ _ (canExecute_events s w)) in HW.
  destruct (attemptLoop _ s name req 0 0 "" _) as [r w2].
  cbn [fst snd] in *. subst r. cbn [snd].
  unfold during in *. rewrite recordFailure_events, HW, backoffs_map.
  apply map_ext. intros k. reflexivity.
Qed.

Lemma exhausted_attempt_backoff_schedule_witness :
  waits (during worldBothFail
           (snd (attemptSendWithCircuitBreaker Mailgun "Mailgun"
                   sampleRequest worldBothFail)))
    = map (fun k => baseDelay (service worldBothFail) * 2 ^ Z.of_nat k)
        (seq 0 (Z.to_nat (maxRetries (service worldBothFail)) - 1)).
Proof.
  apply (exhausted_attempt_backoff_schedule Mailgun "Mailgun" sampleRequest
           worldBothFail).
  - vm_compute; reflexivity.
  - simpl. lia.
  - vm_compute; reflexivity.
Defined.

Lemma isRateLimited_window (w : World) :
  rateLimitWindow (snd (isRateLimited w))
    = snd (RateLimiter.isRateLimited (clock w) (rateLimitWindow w)) /\
  fst (isRateLimited w)
    = fst (RateLimiter.isRateLimited (clock w) (rateLimitWindow w)).
Proof.
  unfold isRateLimited.
  destruct (RateLimiter.isRateLimited (clock w) (rateLimitWindow w));
    split; reflexivity.
Qed.

(** X18.  A request that is not a duplicate but is rejected by the rate
    limiter is answered with [success = false], [attempts = 0] and the
    message "Rate limit exceeded - please try again later"; no provider is
    called, the service object with its breakers and the set of sent
    requests are untouched, and the only change is that the limiter's
    window has been pruned. *)
Theorem rate_limited_request_is_turned_away (req : EmailRequest) (w : World) :
  Idempotency.isDuplicate (requestId req) (SentRequests w) = false ->
  fst (RateLimiter.isRateLimited (clock w) (rateLimitWindow w)) = true ->
  fst (sendEmail req w) =
    {| success := false;
       providerUsed := None;
       attempts := 0;
       errorMessage := Some "Rate limit exceeded - please try again later";
       timestamp := clock w;
       es_requestId := requestId req |} /\
  service (snd (sendEmail req w)) = service w /\
  SentRequests (snd (sendEmail req w)) = SentRequests w /\
  events (snd (sendEmail req w)) = events w /\
  clock (snd (sendEmail req w)) = clock w /\
  RateLimiter.timestamps (rateLimitWindow (snd (sendEmail req w)))
    = List.filter (RateLimiter.fresh (rateLimitWindow w) (clock w))
        (RateLimiter.timestamps (rateLimitWindow w)).
Proof.
  intros Hdup Hlim.
  destruct (isRateLimited_window w) as [HW HF]. rewrite <- HF in Hlim.
  rewrite (sendEmail_limited req w Hdup Hlim). cbn [fst snd].
  rewrite isRateLimited_service, isRateLimited_sent, isRateLimited_events,
    isRateLimited_clock, HW.
  repeat split.
  rewrite HF in Hlim. rewrite isRateLimited_unfold in *. cbn zeta in *.
  destruct (RateLimiter.maxRequests (rateLimitWindow w) <=? _);
    [reflexivity|discriminate].
Qed.

Lemma rate_limited_request_is_turned_away_witness :
  fst (sendEmail sampleRequest worldSaturated) =
    {| success := false;
       providerUsed := None;
       attempts := 0;
       errorMessage := Some "Rate limit exceeded - please try again later";
       timestamp := clock worldSaturated;
       es_requestId := requestId sampleRequest |} /\
  service (snd (sendEmail sampleRequest worldSaturated))
    = service worldSaturated /\
  SentRequests (snd (sendEmail sampleRequest worldSaturated))
    = SentRequests worldSaturated /\
  events (snd (sendEmail sampleRequest worldSaturated))
    = events worldSaturated /\
  clock (snd (sendEmail sampleRequest worldSaturated))
    = clock worldSaturated /\
  RateLimiter.timestamps
    (rateLimitWindow (snd (sendEmail sampleRequest worldSaturated)))
    = List.filter
        (RateLimiter.fresh (rateLimitWindow worldSaturated)
           (clock worldSaturated))
        (RateLimiter.timestamps (rateLimitWindow worldSaturated)).
Proof.
  apply (rate_limited_request_is_turned_away sampleRequest worldSaturated).
  - vm_compute; reflexivity.
  - vm_compute; reflexivity.
Defined.



(** X20.  Sending the same request again after it was delivered: the second
    [sendEmail] is rejected as a duplicate with zero attempts and changes
    nothing, so no provider is called twice for one delivered request. *)
Theorem resend_after_delivery_is_rejected (req : EmailRequest) (w : World) :
  success (fst (sendEmail req w)) = true ->
  sendEmail req (snd (sendEmail req w)) =
    ({| success := false;
        providerUsed := None;
        attempts := 0;
        errorMessage := Some "Duplicate request - email already sent";
        timestamp := clock (snd (sendEmail req w));
        es_requestId := requestId req |},
     snd (sendEmail req w)).
Proof.
  intros Hok. apply sendEmail_duplicate.
  apply bool_decide_eq_true_2, successful_send_marks_request, Hok.
Qed.

Lemma resend_after_delivery_is_rejected_witness :
  sendEmail sampleRequest (snd (sendEmail sampleRequest worldFallback)) =
    ({| success := false;
        providerUsed := None;
        attempts := 0;
        errorMessage := Some "Duplicate request - email already sent";
        timestamp := clock (snd (sendEmail sampleRequest worldFallback));
        es_requestId := requestId sampleRequest |},
     snd (sendEmail sampleRequest worldFallback)).
Proof.
  apply (resend_after_delivery_is_rejected sampleRequest worldFallback).
  vm_compute; reflexivity.
Defined.

End ServiceTraces.

(** ** Availability queries and the HTTP handlers *)

Section ServerFacts.

Import EmailService.
Import Server.

Lemma canExecute_other_breaker (s s' : Slot) (w : World) :
  s' <> s ->
  breaker s' (service (snd (canExecute s w))) = breaker s' (service w).
Proof. intros H. apply (frame_breaker s _ _ (frame_canExecute s w)), H. Qed.

Lemma isAnyProviderAvailable_unfold (w : World) :
  isAnyProviderAvailable w =
    if fst (canExecute SendGrid w)
    then (true, snd (canExecute SendGrid w))
    else canExecute Mailgun (snd (canExecute SendGrid w)).
Proof.
  unfold isAnyProviderAvailable, bind.
  destruct (canExecute SendGrid w) as [[|] w1]; reflexivity.
Qed.

Lemma getBestAvailableProvider_unfold (w : World) :
  getBestAvailableProvider w =
    if fst (canExecute SendGrid w)
    then (Some "SendGrid", snd (canExecute SendGrid w))
    else if fst (canExecute Mailgun (snd (canExecute SendGrid w)))
         then (Some "Mailgun",
               snd (canExecute Mailgun (snd (canExecute SendGrid w))))
         else (None, snd (canExecute Mailgun (snd (canExecute SendGrid w)))).
Proof.
  unfold getBestAvailableProvider, bind.
  destruct (canExecute SendGrid w) as [[|] w1]; [reflexivity|].
  cbn [fst snd]. destruct (canExecute Mailgun w1) as [[|] w2]; reflexivity.
Qed.

Lemma canExecute_verdict (now : Z) (cb : CircuitBreaker.t) :
  (fst (CircuitBreaker.canExecute now cb) = true ->
   CircuitBreaker.state (snd (CircuitBreaker.canExecute now cb))
     <> CircuitBreaker.OPEN) /\
  (fst (CircuitBreaker.canExecute now cb) = false ->
   CircuitBreaker.state cb = CircuitBreaker.OPEN /\
   now < CircuitBreaker.nextAttemptTime cb).
Proof.
  destruct cb as [st n l a cfg nm]. unfold CircuitBreaker.canExecute.
  destruct st; simpl; breaker_cases; simpl; split; intros;
    try discriminate; try (split; [reflexivity|lia]).
Qed.

(** *** One clock reading at a time *)

Lemma tick_service (d : Z) (w : World) : service (snd (tick d w)) = service w.
Proof. reflexivity. Qed.

Lemma tick_clock (d : Z) (w : World) : clock (snd (tick d w)) = clock w + d.
Proof. reflexivity. Qed.

Lemma tick_zero (w : World) : snd (tick 0 w) = w.
Proof.
  destruct w as [sv sent rl c ev]. unfold tick, set_clock; cbn.
  rewrite Z.add_0_r. reflexivity.
Qed.

Lemma keepsStores_refl (w : World) : keepsStores w w.
Proof. repeat split. Qed.

Lemma keepsStores_trans (w1 w2 w3 : World) :
  keepsStores w1 w2 -> keepsStores w2 w3 -> keepsStores w1 w3.
Proof.
  intros (a1 & b1 & c1 & d1 & e1) (a2 & b2 & c2 & d2 & e2).
  repeat split; congruence.
Qed.

Lemma keepsStores_tick (d : Z) (w : World) : keepsStores w (snd (tick d w)).
Proof. repeat split. Qed.

Lemma keepsStores_canExecute (s : Slot) (w : World) :
  keepsStores w (snd (canExecute s w)).
Proof.
  repeat split.
  - apply canExecute_sent.
  - apply (frame_window s), frame_canExecute.
  - apply canExecute_events.
  - apply (canExecute_provider s SendGrid).
  - apply (canExecute_provider s Mailgun).
Qed.

(** A breaker that is not OPEN admits at any time and is left as it is. *)
Lemma canExecute_not_open (s : Slot) (w : World) :
  CircuitBreaker.state (breaker s (service w)) <> CircuitBreaker.OPEN ->
  canExecute s w = (true, w).
Proof.
  intros Hst. unfold canExecute.
  assert (E : CircuitBreaker.canExecute (clock w) (breaker s (service w))
              = (true, breaker s (service w))).
  { unfold CircuitBreaker.canExecute.
    destruct (CircuitBreaker.state (breaker s (service w)));
      [reflexivity|congruence|reflexivity]. }
  rewrite E. destruct w as [[sg mg sgcb mgcb mr bd] sent rl c ev].
  destruct s; reflexivity.
Qed.

Lemma canExecute_true_not_open (s : Slot) (w : World) :
  fst (canExecute s w) = true ->
  CircuitBreaker.state (breaker s (service (snd (canExecute s w))))
    <> CircuitBreaker.OPEN.
Proof.
  rewrite canExecute_answer, canExecute_breaker. apply canExecute_verdict.
Qed.

Lemma canExecute_false_open (s : Slot) (w : World) :
  fst (canExecute s w) = false ->
  CircuitBreaker.state (breaker s (service w)) = CircuitBreaker.OPEN.
Proof.
  rewrite canExecute_answer. intros H.
  apply canExecute_verdict in H as [H _]. exact H.
Qed.

(** An OPEN breaker that admits has been moved to HALF_OPEN. *)
Lemma canExecute_open_admits (s : Slot) (w : World) :
  CircuitBreaker.state (breaker s (service w)) = CircuitBreaker.OPEN ->
  fst (canExecute s w) = true ->
  CircuitBreaker.state (breaker s (service (snd (canExecute s w))))
    = CircuitBreaker.HALF_OPEN.
Proof.
  rewrite canExecute_answer, canExecute_breaker.
  unfold CircuitBreaker.canExecute. intros ->.
  destruct (_ <=? _); [reflexivity|discriminate].
Qed.

Lemma isAnyProviderAvailableAt_unfold (el : nat -> Z) (n : nat) (w : World) :
  isAnyProviderAvailableAt el n w =
    if fst (canExecute SendGrid (snd (tick (el n) w)))
    then (true, snd (canExecute SendGrid (snd (tick (el n) w))))
    else canExecute Mailgun
           (snd (tick (el (S n))
                   (snd (canExecute SendGrid (snd (tick (el n) w)))))).
Proof.
  unfold isAnyProviderAvailableAt, bind. cbn [tick snd].
  destruct (canExecute SendGrid (set_clock (clock w + el n) w))
    as [[|] w1]; reflexivity.
Qed.

Lemma getBestAvailableProviderAt_unfold (el : nat -> Z) (n : nat)
    (w : World) :
  getBestAvailableProviderAt el n w =
    if fst (canExecute SendGrid (snd (tick (el n) w)))
    then (Some "SendGrid", snd (canExecute SendGrid (snd (tick (el n) w))))
    else
      if fst (canExecute Mailgun
                (snd (tick (el (S n))
                        (snd (canExecute SendGrid (snd (tick (el n) w)))))))
      then (Some "Mailgun",
            snd (canExecute Mailgun
                   (snd (tick (el (S n))
                           (snd (canExecute SendGrid
                                   (snd (tick (el n) w))))))))
      else (None,
            snd (canExecute Mailgun
                   (snd (tick (el (S n))
                           (snd (canExecute SendGrid
                                   (snd (tick (el n) w)))))))).
Proof.
  unfold getBestAvailableProviderAt, bind. cbn [tick snd].
  destruct (canExecute SendGrid (set_clock (clock w + el n) w))
    as [[|] w1]; [reflexivity|].
  cbn [fst snd].
  destruct (canExecute Mailgun (set_clock (clock w1 + el (S n)) w1))
    as [[|] w2]; reflexivity.
Qed.

(** When no time passes these are the service's own methods. *)
Lemma isAnyProviderAvailableAt_atOnce (n : nat) (w : World) :
  isAnyProviderAvailableAt atOnce n w = isAnyProviderAvailable w.
Proof.
  rewrite isAnyProviderAvailableAt_unfold, isAnyProviderAvailable_unfold.
  unfold atOnce. rewrite !tick_zero. reflexivity.
Qed.

Lemma getBestAvailableProviderAt_atOnce (n : nat) (w : World) :
  getBestAvailableProviderAt atOnce n w = getBestAvailableProvider w.
Proof.
  rewrite getBestAvailableProviderAt_unfold, getBestAvailableProvider_unfold.
  unfold atOnce. rewrite !tick_zero. reflexivity.
Qed.

(** What an availability query leaves behind. *)
Lemma isAnyProviderAvailableAt_spec (el : nat -> Z) (n : nat) (w : World) :
  keepsStores w (snd (isAnyProviderAvailableAt el n w)) /\
  (fst (isAnyProviderAvailableAt el n w) = true ->
   CircuitBreaker.state
     (breaker SendGrid (service (snd (isAnyProviderAvailableAt el n w))))
     <> CircuitBreaker.OPEN \/
   CircuitBreaker.state
     (breaker Mailgun (service (snd (isAnyProviderAvailableAt el n w))))
     <> CircuitBreaker.OPEN) /\
  (fst (isAnyProviderAvailableAt el n w) = false ->
   service (snd (isAnyProviderAvailableAt el n w)) = service w /\
   CircuitBreaker.state (breaker SendGrid (service w))
     = CircuitBreaker.OPEN /\
   CircuitBreaker.state (breaker Mailgun (service w)) = CircuitBreaker.OPEN).
Proof.
  rewrite isAnyProviderAvailableAt_unfold.
  set (w1 := snd (tick (el n) w)).
  assert (S1 : service w1 = service w) by reflexivity.
  assert (K1 : keepsStores w w1) by apply keepsStores_tick.
  clearbody w1.
  pose proof (keepsStores_canExecute SendGrid w1) as K2.
  destruct (fst (canExecute SendGrid w1)) eqn:Hsg; cbn [fst snd].
  - split; [eapply keepsStores_trans; eassumption|].
    split; [|discriminate]. intros _. left.
    apply canExecute_true_not_open, Hsg.
  - pose proof (canExecute_false_open SendGrid w1 Hsg) as Osg.
    rewrite (canExecute_denied SendGrid w1 Hsg) in *.
    set (w2 := snd (tick (el (S n)) w1)).
    assert (S2 : service w2 = service w1) by reflexivity.
    assert (K3 : keepsStores w1 w2) by apply keepsStores_tick.
    clearbody w2.
    pose proof (keepsStores_canExecute Mailgun w2) as K4.
    split.
    { eapply keepsStores_trans; [exact K1|].
      eapply keepsStores_trans; eassumption. }
    split.
    + intros Hmg. right. apply canExecute_true_not_open, Hmg.
    + intros Hmg.
      pose proof (canExecute_false_open Mailgun w2 Hmg) as Omg.
      rewrite (canExecute_denied Mailgun w2 Hmg).
      rewrite S2, S1 in *. repeat split; assumption.
Qed.

(** What a best-provider query answers and leaves behind. *)
Lemma getBestAvailableProviderAt_spec (el : nat -> Z) (n : nat) (w : World) :
  keepsStores w (snd (getBestAvailableProviderAt el n w)) /\
  ((fst (getBestAvailableProviderAt el n w) = Some "SendGrid" /\
    CircuitBreaker.state
      (breaker SendGrid (service (snd (getBestAvailableProviderAt el n w))))
      <> CircuitBreaker.OPEN /\
    (CircuitBreaker.state (breaker SendGrid (service w))
       = CircuitBreaker.OPEN ->
     CircuitBreaker.state
       (breaker SendGrid
          (service (snd (getBestAvailableProviderAt el n w))))
       = CircuitBreaker.HALF_OPEN)) \/
   (fst (getBestAvailableProviderAt el n w) = Some "Mailgun" /\
    CircuitBreaker.state
      (breaker Mailgun (service (snd (getBestAvailableProviderAt el n w))))
      <> CircuitBreaker.OPEN /\
    (CircuitBreaker.state (breaker Mailgun (service w))
       = CircuitBreaker.OPEN ->
     CircuitBreaker.state
       (breaker Mailgun
          (service (snd (getBestAvailableProviderAt el n w))))
       = CircuitBreaker.HALF_OPEN)) \/
   (fst (getBestAvailableProviderAt el n w) = None /\
    service (snd (getBestAvailableProviderAt el n w)) = service w /\
    CircuitBreaker.state (breaker SendGrid (service w))
      = CircuitBreaker.OPEN /\
    CircuitBreaker.state (breaker Mailgun (service w))
      = CircuitBreaker.OPEN)).
Proof.
  rewrite getBestAvailableProviderAt_unfold.
  set (w1 := snd (tick (el n) w)).
  assert (S1 : service w1 = service w) by reflexivity.
  assert (K1 : keepsStores w w1) by apply keepsStores_tick.
  clearbody w1.
  pose proof (keepsStores_canExecute SendGrid w1) as K2.
  destruct (fst (canExecute SendGrid w1)) eqn:Hsg; cbn [fst snd].
  - split; [eapply keepsStores_trans; eassumption|].
    left. split; [reflexivity|]. split.
    + apply canExecute_true_not_open, Hsg.
    + rewrite <- S1. intros O. apply canExecute_open_admits; assumption.
  - pose proof (canExecute_false_open SendGrid w1 Hsg) as Osg.
    rewrite (canExecute_denied SendGrid w1 Hsg) in *.
    set (w2 := snd (tick (el (S n)) w1)).
    assert (S2 : service w2 = service w1) by reflexivity.
    assert (K3 : keepsStores w1 w2) by apply keepsStores_tick.
    clearbody w2.
    pose proof (keepsStores_canExecute Mailgun w2) as K4.
    assert (K : keepsStores w (snd (canExecute Mailgun w2))).
    { eapply keepsStores_trans; [exact K1|].
      eapply keepsStores_trans; eassumption. }
    destruct (fst (canExecute Mailgun w2)) eqn:Hmg; cbn [fst snd];
      (split; [exact K|]).
    + right. left. split; [reflexivity|]. split.
      * apply canExecute_true_not_open, Hmg.
      * rewrite <- S1, <- S2. intros O.
        apply canExecute_open_admits; assumption.
    + right. right.
      pose proof (canExecute_false_open Mailgun w2 Hmg) as Omg.
      rewrite (canExecute_denied Mailgun w2 Hmg).
      rewrite S2, S1 in *. repeat split; assumption.
Qed.

(** A world in which some breaker is not OPEN always has a best provider. *)
Lemma getBestAvailableProviderAt_some (el : nat -> Z) (n : nat) (w : World) :
  CircuitBreaker.state (breaker SendGrid (service w)) <> CircuitBreaker.OPEN
  \/ CircuitBreaker.state (breaker Mailgun (service w))
     <> CircuitBreaker.OPEN ->
  fst (getBestAvailableProviderAt el n w) <> None.
Proof.
  intros Hsome Hnone.
  destruct (getBestAvailableProviderAt_spec el n w)
    as (_ & [(E & _)|[(E & _)|(_ & _ & O1 & O2)]]);
    [congruence|congruence|].
  destruct Hsome as [H|H]; congruence.
Qed.

(** X21.  The provider status endpoint, with time passing between its clock
    readings.  If it reports a provider available, it names SendGrid or
    Mailgun as the best one; whichever provider it names, that provider's
    breaker is reported not OPEN; if it names none, it reports no provider
    available and both breakers OPEN, and the service is as it was.  The
    request calls no provider and leaves the rate-limit window and the set
    of sent requests alone. *)
Theorem providers_status_is_consistent (el : nat -> Z) (w : World) :
  (ps_anyProviderAvailable (fst (getProvidersStatus el w)) = true ->
   ps_bestAvailableProvider (fst (getProvidersStatus el w)) = Some "SendGrid"
   \/ ps_bestAvailableProvider (fst (getProvidersStatus el w))
      = Some "Mailgun") /\
  (ps_bestAvailableProvider (fst (getProvidersStatus el w)) = Some "SendGrid"
   -> CircuitBreaker.st_state
        (fst (ps_circuitBreakers (fst (getProvidersStatus el w))))
      <> CircuitBreaker.OPEN) /\
  (ps_bestAvailableProvider (fst (getProvidersStatus el w)) = Some "Mailgun"
   -> CircuitBreaker.st_state
        (snd (ps_circuitBreakers (fst (getProvidersStatus el w))))
      <> CircuitBreaker.OPEN) /\
  (ps_bestAvailableProvider (fst (getProvidersStatus el w)) = None ->
   ps_anyProviderAvailable (fst (getProvidersStatus el w)) = false /\
   CircuitBreaker.st_state
     (fst (ps_circuitBreakers (fst (getProvidersStatus el w))))
     = CircuitBreaker.OPEN /\
   CircuitBreaker.st_state
     (snd (ps_circuitBreakers (fst (getProvidersStatus el w))))
     = CircuitBreaker.OPEN /\
   service (snd (getProvidersStatus el w)) = service w) /\
  keepsStores w (snd (getProvidersStatus el w)).
Proof.
  unfold getProvidersStatus, bind, getCircuitBreakerStatus.
  pose proof (isAnyProviderAvailableAt_spec el 0 w) as (KA & HT & HF).
  destruct (isAnyProviderAvailableAt el 0 w) as [any w1].
  cbn [fst snd] in *.
  pose proof (getBestAvailableProviderAt_spec el 2 w1) as (KB & HB).
  pose proof (getBestAvailableProviderAt_some el 2 w1) as HS.
  destruct (getBestAvailableProviderAt el 2 w1) as [best w2].
  cbn [fst snd ret ps_anyProviderAvailable ps_bestAvailableProvider
       ps_circuitBreakers CircuitBreaker.getStatus CircuitBreaker.st_state]
    in *.
  change (sendGridCircuitBreaker (service w2))
    with (breaker SendGrid (service w2)).
  change (mailgunCircuitBreaker (service w2))
    with (breaker Mailgun (service w2)).
  assert (K : keepsStores w w2) by (eapply keepsStores_trans; eassumption).
  destruct HB as [(E & N & _)|[(E & N & _)|(E & Sv & O1 & O2)]]; subst best.
  - split; [intros _; left; reflexivity|].
    split; [intros _; exact N|].
    split; [discriminate|]. split; [discriminate|exact K].
  - split; [intros _; right; reflexivity|].
    split; [discriminate|].
    split; [intros _; exact N|]. split; [discriminate|exact K].
  - rewrite Sv.
    assert (Hany : any = false).
    { destruct any; [|reflexivity]. exfalso. apply HS; [|reflexivity].
      apply HT. reflexivity. }
    subst any. destruct (HF eq_refl) as (Sv1 & _ & _).
    split; [discriminate|]. split; [discriminate|].
    split; [discriminate|]. split; [|exact K].
    intros _. repeat split; assumption.
Qed.

(** The two answers of that endpoint can disagree: with both breakers OPEN
    until 33000 and the first query made at 32990, ten milliseconds before
    the second, the response says no provider is available and names
    SendGrid as the best one. *)
Lemma providers_status_can_disagree :
  ps_anyProviderAvailable
    (fst (getProvidersStatus (fun n => match n with 2%nat => 10 | _ => 0 end)
            worldBothOpenLate)) = false /\
  ps_bestAvailableProvider
    (fst (getProvidersStatus (fun n => match n with 2%nat => 10 | _ => 0 end)
            worldBothOpenLate)) = Some "SendGrid".
Proof. split; vm_compute; reflexivity. Qed.

(** X22.  A request the send endpoint refuses before [sendEmail].  With a
    missing or empty field the answer is 400 with the missing-fields error
    and nothing at all has changed.  A 503 answer carries the unavailable
    error with an [availableProvider] that is null, SendGrid or Mailgun; no
    provider was called, no rate-limit slot was used and no request id was
    marked; if [availableProvider] is null the service is as it was, and if
    it names a provider, that provider's breaker has been moved to
    HALF_OPEN by the refused request. *)
Theorem refused_request_touches_only_breakers
    (b : Body) (el : nat -> Z) (w : World) :
  (falsy (b_to b) || falsy (b_subject b) || falsy (b_body b)
   || falsy (b_requestId b) = true ->
   postSendEmail b el w =
     ({| statusCode := 400;
         payload :=
           MissingFields
             "Missing required fields: to, subject, body, requestId" |}, w))
  /\
  (statusCode (fst (postSendEmail b el w)) = 503 ->
   keepsStores w (snd (postSendEmail b el w)) /\
   ((payload (fst (postSendEmail b el w)) =
       Unavailable "Service temporarily unavailable"
         "All email providers are currently unavailable due to circuit breaker protection"
         None /\
     service (snd (postSendEmail b el w)) = service w) \/
    (payload (fst (postSendEmail b el w)) =
       Unavailable "Service temporarily unavailable"
         "All email providers are currently unavailable due to circuit breaker protection"
         (Some "SendGrid") /\
     CircuitBreaker.state
       (sendGridCircuitBreaker (service (snd (postSendEmail b el w))))
       = CircuitBreaker.HALF_OPEN) \/
    (payload (fst (postSendEmail b el w)) =
       Unavailable "Service temporarily unavailable"
         "All email providers are currently unavailable due to circuit breaker protection"
         (Some "Mailgun") /\
     CircuitBreaker.state
       (mailgunCircuitBreaker (service (snd (postSendEmail b el w))))
       = CircuitBreaker.HALF_OPEN))).
Proof.
  unfold postSendEmail.
  destruct (falsy (b_to b) || falsy (b_subject b) || falsy (b_body b)
            || falsy (b_requestId b)).
  { split; [reflexivity|]. cbn. discriminate. }
  split; [discriminate|]. unfold bind.
  pose proof (isAnyProviderAvailableAt_spec el 0 w) as (KA & _ & HF).
  destruct (isAnyProviderAvailableAt el 0 w) as [[|] w1];
    cbn [fst snd negb] in *.
  - destruct (tick (el 2%nat) w1) as [[] w1'].
    destruct (sendEmail (asRequest b) w1') as [r w2]. cbn [fst statusCode].
    destruct (success r); discriminate.
  - destruct (HF eq_refl) as (Sv1 & O1 & O2). clear HF.
    pose proof (getBestAvailableProviderAt_spec el 2 w1) as (KB & HB).
    destruct (getBestAvailableProviderAt el 2 w1) as [best w2].
    cbn [fst snd ret statusCode payload] in *. intros _.
    split; [eapply keepsStores_trans; eassumption|].
    rewrite Sv1 in HB.
    destruct HB as [(E & _ & H)|[(E & _ & H)|(E & Sv & _)]]; subst best.
    + right. left. split; [reflexivity|]. apply H, O1.
    + right. right. split; [reflexivity|]. apply H, O2.
    + left. split; [reflexivity|]. exact Sv.
Qed.

(** X23.  The send endpoint answers 200, 400 or 503 and nothing else.  It
    answers 200 exactly when [sendEmail] ran and returned success, and then
    all four fields of the body were present and non-empty and the request
    id is in the set of sent requests. *)
Theorem send_endpoint_status_codes (b : Body) (el : nat -> Z) (w : World) :
  (statusCode (fst (postSendEmail b el w)) = 200 \/
   statusCode (fst (postSendEmail b el w)) = 400 \/
   statusCode (fst (postSendEmail b el w)) = 503) /\
  (statusCode (fst (postSendEmail b el w)) = 200 <->
   exists r, payload (fst (postSendEmail b el w)) = Result r /\
             success r = true) /\
  (statusCode (fst (postSendEmail b el w)) = 200 ->
   falsy (b_to b) = false /\ falsy (b_subject b) = false /\
   falsy (b_body b) = false /\ falsy (b_requestId b) = false /\
   requestId (asRequest b) ∈ SentRequests (snd (postSendEmail b el w))).
Proof.
  unfold postSendEmail.
  destruct (falsy (b_to b)) eqn:V1; cbn [orb].
  { cbn. repeat split; try discriminate; try (right; left; reflexivity).
    intros (r & Hr & _). discriminate. }
  destruct (falsy (b_subject b)) eqn:V2; cbn [orb].
  { cbn. repeat split; try discriminate; try (right; left; reflexivity).
    intros (r & Hr & _). discriminate. }
  destruct (falsy (b_body b)) eqn:V3; cbn [orb].
  { cbn. repeat split; try discriminate; try (right; left; reflexivity).
    intros (r & Hr & _). discriminate. }
  destruct (falsy (b_requestId b)) eqn:V4; cbn [orb].
  { cbn. repeat split; try discriminate; try (right; left; reflexivity).
    intros (r & Hr & _). discriminate. }
  unfold bind.
  destruct (isAnyProviderAvailableAt el 0 w) as [[|] w1]; cbn [fst snd negb].
  - destruct (tick (el 2%nat) w1) as [[] w1'].
    pose proof (successful_send_marks_request (asRequest b) w1') as HM.
    destruct (sendEmail (asRequest b) w1') as [r w2].
    cbn [fst snd statusCode payload] in *.
    destruct (success r) eqn:Hs.
    + repeat split; try reflexivity; try (left; reflexivity).
      * intros _. exists r. split; [reflexivity|exact Hs].
      * apply HM. reflexivity.
    + repeat split; try discriminate; try (right; left; reflexivity).
      intros (r' & Hr & Hs'). inversion Hr; subst. congruence.
  - destruct (getBestAvailableProviderAt el 2 w1) as [best w2].
    cbn [fst snd statusCode payload].
    repeat split; try discriminate; try (right; right; reflexivity).
    intros (r & Hr & _). discriminate.
Qed.

(** X24.  The health endpoint, with time passing between its clock
    readings.  It answers 200 with status "OK" or 503 with status
    "DEGRADED"; the list of available providers is empty or holds exactly
    one name, SendGrid or Mailgun, never a null entry; it is not empty when
    the answer is 200; when it is empty the service is as it was.  The
    check calls no provider and leaves the rate-limit window and the set of
    sent requests alone: reading the rate-limit status does not prune the
    window. *)
Theorem health_reports_what_is_available (el : nat -> Z) (w : World) :
  ((fst (fst (getHealth el w)) = 200 /\
    h_status (snd (fst (getHealth el w))) = "OK") \/
   (fst (fst (getHealth el w)) = 503 /\
    h_status (snd (fst (getHealth el w))) = "DEGRADED")) /\
  (h_availableProviders (snd (fst (getHealth el w))) = [] \/
   h_availableProviders (snd (fst (getHealth el w))) = [Some "SendGrid"] \/
   h_availableProviders (snd (fst (getHealth el w))) = [Some "Mailgun"]) /\
  (fst (fst (getHealth el w)) = 200 ->
   h_availableProviders (snd (fst (getHealth el w))) <> []) /\
  (h_availableProviders (snd (fst (getHealth el w))) = [] ->
   service (snd (getHealth el w)) = service w) /\
  keepsStores w (snd (getHealth el w)).
Proof.
  unfold getHealth, bind, getServiceStatus.
  pose proof (isAnyProviderAvailableAt_spec el 0 w) as (KA & HT & HF).
  destruct (isAnyProviderAvailableAt el 0 w) as [healthy w1].
  cbn [fst snd] in *.
  set (w2 := snd (tick (el 2%nat) w1)).
  assert (S2 : service w2 = service w1) by reflexivity.
  assert (K2 : keepsStores w1 w2) by apply keepsStores_tick.
  change (tick (el 2%nat) w1) with (tt, w2).
  cbn [fst snd getRateLimitStatus].
  clearbody w2.
  pose proof (getBestAvailableProviderAt_spec el 3 w2) as (KB & HB).
  pose proof (getBestAvailableProviderAt_some el 3 w2) as HS.
  rewrite S2 in HS.
  destruct (getBestAvailableProviderAt el 3 w2) as [best w3].
  cbn [fst snd] in *.
  assert (K3 : keepsStores w w3).
  { eapply keepsStores_trans; [exact KA|].
    eapply keepsStores_trans; eassumption. }
  assert (Hcode : (((if healthy then 200 else 503) = 200 /\
                    (if healthy then "OK" else "DEGRADED") = "OK") \/
                   ((if healthy then 200 else 503) = 503 /\
                    (if healthy then "OK" else "DEGRADED") = "DEGRADED"))).
  { destruct healthy; [left|right]; split; reflexivity. }
  destruct HB as [(E & N & _)|[(E & N & _)|(E & Sv & O1 & O2)]]; subst best.
  - pose proof (getBestAvailableProviderAt_spec el 5 w3) as (KC & HC).
    pose proof (getBestAvailableProviderAt_some el 5 w3 (or_introl N)) as HS'.
    destruct (getBestAvailableProviderAt el 5 w3) as [again w4].
    cbn [fst snd ret h_status h_availableProviders] in *.
    split; [exact Hcode|].
    assert (Hag : again = Some "SendGrid" \/ again = Some "Mailgun").
    { destruct HC as [(E & _)|[(E & _)|(E & _)]]; [left|right|];
        try exact E. congruence. }
    split; [destruct Hag as [-> | ->]; [right; left|right; right];
            reflexivity|].
    split; [intros _; destruct Hag as [-> | ->]; discriminate|].
    split; [destruct Hag as [-> | ->]; discriminate|].
    eapply keepsStores_trans; eassumption.
  - pose proof (getBestAvailableProviderAt_spec el 5 w3) as (KC & HC).
    pose proof (getBestAvailableProviderAt_some el 5 w3 (or_intror N)) as HS'.
    destruct (getBestAvailableProviderAt el 5 w3) as [again w4].
    cbn [fst snd ret h_status h_availableProviders] in *.
    split; [exact Hcode|].
    assert (Hag : again = Some "SendGrid" \/ again = Some "Mailgun").
    { destruct HC as [(E & _)|[(E & _)|(E & _)]]; [left|right|];
        try exact E. congruence. }
    split; [destruct Hag as [-> | ->]; [right; left|right; right];
            reflexivity|].
    split; [intros _; destruct Hag as [-> | ->]; discriminate|].
    split; [destruct Hag as [-> | ->]; discriminate|].
    eapply keepsStores_trans; eassumption.
  - cbn [fst snd ret h_status h_availableProviders] in *.
    assert (Hh : healthy = false).
    { destruct healthy; [|reflexivity]. exfalso. apply HS; [|reflexivity].
      apply HT. reflexivity. }
    subst healthy. destruct (HF eq_refl) as (Sv1 & _ & _).
    split; [exact Hcode|]. split; [left; reflexivity|].
    split; [discriminate|]. split; [|exact K3].
    intros _. rewrite Sv, S2. exact Sv1.
Qed.

(** The answer can be DEGRADED and yet list a provider: with both breakers
    OPEN until 33000, the availability query made at 32990 and the
    best-provider queries ten milliseconds later. *)
Lemma health_can_be_degraded_with_a_provider :
  fst (fst (getHealth (fun n => match n with 3%nat => 10 | _ => 0 end)
              worldBothOpenLate)) = 503 /\
  h_availableProviders
    (snd (fst (getHealth (fun n => match n with 3%nat => 10 | _ => 0 end)
                 worldBothOpenLate))) = [Some "SendGrid"].
Proof. split; vm_compute; reflexivity. Qed.

(** X25.  A health check is not a pure read: when the SendGrid breaker is
    OPEN and its recovery timeout has passed, the check itself moves the
    breaker to HALF_OPEN and answers 200, while the service status in the
    same response, taken before the move, still shows the breaker OPEN. *)
Theorem health_check_half_opens_breaker (el : nat -> Z) (w : World) :
  0 <= el 0%nat ->
  CircuitBreaker.state (sendGridCircuitBreaker (service w))
    = CircuitBreaker.OPEN ->
  CircuitBreaker.nextAttemptTime (sendGridCircuitBreaker (service w))
    <= clock w ->
  fst (fst (getHealth el w)) = 200 /\
  CircuitBreaker.st_state
    (ss_sendGrid (h_service (snd (fst (getHealth el w)))))
    = CircuitBreaker.OPEN /\
  CircuitBreaker.state
    (sendGridCircuitBreaker (service (snd (getHealth el w))))
    = CircuitBreaker.HALF_OPEN.
Proof.
  intros Hel Hst Hnext.
  set (w0 := snd (tick (el 0%nat) w)).
  assert (Hok : fst (canExecute SendGrid w0) = true).
  { rewrite canExecute_answer. unfold w0. rewrite tick_service, tick_clock.
    cbn [breaker]. unfold CircuitBreaker.canExecute. rewrite Hst.
    destruct (Z.leb_spec
                (CircuitBreaker.nextAttemptTime
                   (sendGridCircuitBreaker (service w)))
                (clock w + el 0%nat)); [reflexivity|lia]. }
  assert (Hb : CircuitBreaker.state
                 (breaker SendGrid (service (snd (canExecute SendGrid w0))))
               = CircuitBreaker.HALF_OPEN).
  { apply canExecute_open_admits; [exact Hst|exact Hok]. }
  assert (EA : isAnyProviderAvailableAt el 0 w
               = (true, snd (canExecute SendGrid w0))).
  { rewrite isAnyProviderAvailableAt_unfold. fold w0. rewrite Hok.
    reflexivity. }
  assert (EB : forall n w',
             CircuitBreaker.state (breaker SendGrid (service w'))
               = CircuitBreaker.HALF_OPEN ->
             fst (getBestAvailableProviderAt el n w') = Some "SendGrid" /\
             CircuitBreaker.state
               (breaker SendGrid
                  (service (snd (getBestAvailableProviderAt el n w'))))
               = CircuitBreaker.HALF_OPEN).
  { intros n w' H'. rewrite getBestAvailableProviderAt_unfold.
    rewrite (canExecute_not_open SendGrid (snd (tick (el n) w')))
      by (rewrite tick_service, H'; discriminate).
    cbn [fst snd]. rewrite tick_service. split; [reflexivity|exact H']. }
  unfold getHealth, bind, getServiceStatus.
  rewrite EA. cbn [fst snd].
  set (w1 := snd (canExecute SendGrid w0)) in *. clearbody w1.
  change (tick (el 2%nat) w1) with (tt, snd (tick (el 2%nat) w1)).
  cbn [fst snd getRateLimitStatus].
  destruct (EB 3%nat (snd (tick (el 2%nat) w1)) Hb) as [B1 B2].
  destruct (getBestAvailableProviderAt el 3 (snd (tick (el 2%nat) w1)))
    as [best w3].
  cbn [fst snd] in *. subst best.
  destruct (EB 5%nat w3 B2) as [D1 D2].
  destruct (getBestAvailableProviderAt el 5 w3) as [again w4].
  cbn [fst snd ret h_service ss_sendGrid] in *.
  repeat split.
  - unfold CircuitBreaker.getStatus. cbn [CircuitBreaker.st_state].
    exact Hst.
  - exact D2.
Qed.

Lemma health_check_half_opens_breaker_witness :
  fst (fst (getHealth atOnce worldSendGridRecovering)) = 200 /\
  CircuitBreaker.st_state
    (ss_sendGrid
       (h_service (snd (fst (getHealth atOnce worldSendGridRecovering)))))
    = CircuitBreaker.OPEN /\
  CircuitBreaker.state
    (sendGridCircuitBreaker
       (service (snd (getHealth atOnce worldSendGridRecovering))))
    = CircuitBreaker.HALF_OPEN.
Proof.
  apply (health_check_half_opens_breaker atOnce worldSendGridRecovering).
  - vm_compute. discriminate.
  - reflexivity.
  - vm_compute. discriminate.
Defined.

(** X26.  The reset endpoint reports both breakers CLOSED with a zero
    failure count and no next attempt time, under their unchanged
    configuration; it touches nothing but the breakers; and right after it
    SendGrid is available again, so the next request is tried there first. *)
Theorem reset_endpoint_reopens_service (w : World) :
  fst (postResetCircuitBreakers w)
    = ({| CircuitBreaker.st_providerName :=
            CircuitBreaker.providerName (sendGridCircuitBreaker (service w));
          CircuitBreaker.st_state := CircuitBreaker.CLOSED;
          CircuitBreaker.st_failureCount := 0;
          CircuitBreaker.st_nextAttemptTime := None;
          CircuitBreaker.st_config :=
            CircuitBreaker.config (sendGridCircuitBreaker (service w)) |},
       {| CircuitBreaker.st_providerName :=
            CircuitBreaker.providerName (mailgunCircuitBreaker (service w));
          CircuitBreaker.st_state := CircuitBreaker.CLOSED;
          CircuitBreaker.st_failureCount := 0;
          CircuitBreaker.st_nextAttemptTime := None;
          CircuitBreaker.st_config :=
            CircuitBreaker.config (mailgunCircuitBreaker (service w)) |}) /\
  sendGridProvider (service (snd (postResetCircuitBreakers w)))
    = sendGridProvider (service w) /\
  mailgunProvider (service (snd (postResetCircuitBreakers w)))
    = mailgunProvider (service w) /\
  SentRequests (snd (postResetCircuitBreakers w)) = SentRequests w /\
  rateLimitWindow (snd (postResetCircuitBreakers w)) = rateLimitWindow w /\
  fst (getBestAvailableProvider (snd (postResetCircuitBreakers w)))
    = Some "SendGrid".
Proof.
  unfold postResetCircuitBreakers, bind, resetCircuitBreakers,
    getCircuitBreakerStatus.
  cbn [fst snd service set_service set_breaker sendGridCircuitBreaker
       mailgunCircuitBreaker sendGridProvider mailgunProvider SentRequests
       rateLimitWindow].
  repeat split.
Qed.

End ServerFacts.
